(** * Workout WhatsApp notifier: a shallow embedding and its properties

    The development follows [workout_whatsapp_notifier.py].  Python strings
    are sequences of Unicode code points, so a string is a list of code
    points ([N]) and [len] is the length of that list.  Dictionaries are
    [gmap]s, the data frame is the list of its rows, the state file and the
    messaging client are threaded explicitly. *)

From Stdlib Require Import ZArith NArith List String Ascii Lia Decimal DecimalNat.
From stdpp Require Import gmap list.
Import ListNotations.

Local Open Scope N_scope.

(** ** Python strings *)

Module PyStr.

Abbreviation char := N (only parsing).
Abbreviation str := (list N) (only parsing).

(** String literals are written as in the source and decoded from UTF-8
    into code points. *)
Fixpoint utf8_decode (bs : list N) : str :=
  match bs with
  | [] => []
  | b :: r =>
    if b <? 128 then b :: utf8_decode r
    else if b <? 224 then
      match r with
      | b2 :: r2 => ((b mod 32) * 64 + b2 mod 64) :: utf8_decode r2
      | _ => []
      end
    else if b <? 240 then
      match r with
      | b2 :: b3 :: r3 =>
          ((b mod 16) * 4096 + (b2 mod 64) * 64 + b3 mod 64) :: utf8_decode r3
      | _ => []
      end
    else
      match r with
      | b2 :: b3 :: b4 :: r4 =>
          ((b mod 8) * 262144 + (b2 mod 64) * 4096 + (b3 mod 64) * 64 + b4 mod 64)
            :: utf8_decode r4
      | _ => []
      end
  end.

(** The escape [\n] of a Python literal is the line feed. *)
Fixpoint unescape (s : str) : str :=
  match s with
  | 92 :: 110 :: r => 10 :: unescape r
  | c :: r => c :: unescape r
  | [] => []
  end.

Definition u (s : string) : str :=
  unescape (utf8_decode (List.map N_of_ascii (list_ascii_of_string s))).
Arguments u s%_string.

Definition nl : char := 10.
Definition len (s : str) : Z := Z.of_nat (length s).

(** [bool(s)] for a string: non-empty. *)
Definition truthy (s : str) : bool :=
  match s with [] => false | _ :: _ => true end.

(** [str.isspace] on one code point (the whitespace that [strip] and
    [rstrip] without argument remove). *)
Definition isspace (c : char) : bool :=
  ((9 <=? c) && (c <=? 13)) || ((28 <=? c) && (c <=? 32))
  || (c =? 133) || (c =? 160) || (c =? 5760)
  || ((8192 <=? c) && (c <=? 8202))
  || (c =? 8232) || (c =? 8233) || (c =? 8239) || (c =? 8287) || (c =? 12288).

Fixpoint lstrip (s : str) : str :=
  match s with
  | c :: r => if isspace c then lstrip r else s
  | [] => []
  end.

Definition rstrip (s : str) : str := rev (lstrip (rev s)).
Definition strip (s : str) : str := rstrip (lstrip s).

(** [str.lower] on the ASCII letters; other code points are kept.  Python
    also lowers the cased letters outside ASCII, but only two of them give
    an ASCII letter, U+212A (to k) and U+0130 (to i followed by U+0307), and
    neither can complete one of the words [classify_day] looks for, so the
    substring tests of the classifier come out the same. *)
Definition lower_char (c : char) : char :=
  if (65 <=? c) && (c <=? 90) then c + 32 else c.
Definition lower (s : str) : str := List.map lower_char s.

Fixpoint startswith (p s : str) : bool :=
  match p, s with
  | [], _ => true
  | _ :: _, [] => false
  | a :: p', b :: s' => (a =? b) && startswith p' s'
  end.

(** [needle in s] *)
Fixpoint contains (needle s : str) : bool :=
  startswith needle s ||
  match s with
  | [] => false
  | _ :: s' => contains needle s'
  end.

(** [s.split(c)] for a one-character separator. *)
Fixpoint split_char (c : char) (s : str) : list str :=
  match s with
  | [] => [[]]
  | x :: r =>
    if x =? c then [] :: split_char c r
    else match split_char c r with
         | p :: ps => (x :: p) :: ps
         | [] => [[x]]
         end
  end.

(** [s.split(c + c)]: the separator is the character doubled, matches are
    taken from the left and do not overlap. *)
Fixpoint split_double (c : char) (s : str) : list str :=
  match s with
  | [] => [[]]
  | x :: r =>
    let keep := match split_double c r with
                | p :: ps => (x :: p) :: ps
                | [] => [[x]]
                end in
    match r with
    | y :: r' => if (x =? c) && (y =? c) then [] :: split_double c r' else keep
    | [] => keep
    end
  end.

(** [sep.join(l)] *)
Fixpoint join (sep : str) (l : list str) : str :=
  match l with
  | [] => []
  | [p] => p
  | p :: ps => p ++ sep ++ join sep ps
  end.

(** [str(n)] for a non-negative integer: its decimal digits. *)
Fixpoint digits (d : Decimal.uint) : str :=
  match d with
  | Decimal.Nil => []
  | Decimal.D0 d => 48 :: digits d
  | Decimal.D1 d => 49 :: digits d
  | Decimal.D2 d => 50 :: digits d
  | Decimal.D3 d => 51 :: digits d
  | Decimal.D4 d => 52 :: digits d
  | Decimal.D5 d => 53 :: digits d
  | Decimal.D6 d => 54 :: digits d
  | Decimal.D7 d => 55 :: digits d
  | Decimal.D8 d => 56 :: digits d
  | Decimal.D9 d => 57 :: digits d
  end.

Definition str_of_nat (n : nat) : str := digits (Nat.to_uint n).

End PyStr.
Import PyStr.

(** ** Day classifier *)

Definition classify_day (day_name : str) : str :=
  let name := lower day_name in
  if contains (u "pull") name then u "pull"
  else if contains (u "push") name then u "push"
  else if contains (u "leg") name || contains (u "legs") name then u "legs"
  else if contains (u "cardio") name then u "cardio"
  else u "general".

Definition categories : list str :=
  [u "pull"; u "push"; u "legs"; u "cardio"; u "general"].


(** ** The plan table *)

(** A cell of the data frame read from the spreadsheet: text, or the
    missing value that [dropna] removes. *)
Inductive cell :=
  | NaN
  | Text (s : str).

(** [str(v)] and the formatting of a cell inside an f-string. *)
Definition cell_str (v : cell) : str :=
  match v with
  | NaN => u "nan"
  | Text s => s
  end.

(** One row; the two optional columns may be absent from the table
    ([r.get(column, "")] then gives the default). *)
Record PlanRow := {
  Day : cell;
  Exercise : cell;
  Primary_Target : cell;
  Secondary_Target : option cell;
  Tertiary_Target : option cell
}.

Definition DataFrame := list PlanRow.

(** [df["Day"].dropna().tolist()] *)
Fixpoint dropna (l : list cell) : list str :=
  match l with
  | [] => []
  | NaN :: r => dropna r
  | Text s :: r => s :: dropna r
  end.

Fixpoint unique_from (seen : gset str) (ds : list str) : list str :=
  match ds with
  | [] => []
  | d :: r =>
    if decide (d ∈ seen) then unique_from seen r
    else d :: unique_from ({[d]} ∪ seen) r
  end.

Definition ordered_unique_days (df : DataFrame) : list str :=
  unique_from ∅ (dropna (List.map Day df)).

(** ** Alias builder *)

Record alias_state := {
  counts : gmap str nat;
  alias_to_day : gmap str str;
  rows : list (str * str)
}.

Definition alias_init : alias_state :=
  {| counts := list_to_map
       [(u "pull", 0%nat); (u "push", 0%nat); (u "legs", 0%nat);
        (u "cardio", 0%nat); (u "general", 0%nat)];
     alias_to_day := ∅;
     rows := [] |}.

(** The body of the loop over the days. *)
Definition alias_step (st : alias_state) (d : str) : alias_state :=
  let typ := classify_day d in
  let counts' := <[typ := (default 0%nat (counts st !! typ) + 1)%nat]> (counts st) in
  let alias := typ ++ str_of_nat (counts' !!! typ) in
  let a1 := <[alias := d]> (alias_to_day st) in
  let a2 := if Nat.eqb (counts' !!! typ) 1 then <[typ := d]> a1 else a1 in
  {| counts := counts'; alias_to_day := a2; rows := rows st ++ [(alias, d)] |}.

Definition alias_loop (days : list str) : alias_state :=
  fold_left alias_step days alias_init.

Definition build_alias_map (df : DataFrame) : gmap str str * list (str * str) :=
  let st := alias_loop (ordered_unique_days df) in
  (alias_to_day st, rows st).

(** ** Link generators *)

(** The bytes of one code point in UTF-8.  The text of a sheet and the
    literals of the program hold no lone surrogate (U+D800 to U+DFFF), which
    Python refuses to encode; the function is meant for the other code
    points, and what is proved of the encoding is proved for those. *)
Definition utf8_encode (c : char) : list N :=
  if c <? 128 then [c]
  else if c <? 2048 then [192 + c / 64; 128 + c mod 64]
  else if c <? 65536 then
    [224 + c / 4096; 128 + (c / 64) mod 64; 128 + c mod 64]
  else
    [240 + c / 262144; 128 + (c / 4096) mod 64; 128 + (c / 64) mod 64;
     128 + c mod 64].

Definition hex_digit (d : N) : char := if d <? 10 then 48 + d else 55 + d.

Definition unreserved (b : N) : bool :=
  ((65 <=? b) && (b <=? 90)) || ((97 <=? b) && (b <=? 122))
  || ((48 <=? b) && (b <=? 57))
  || (b =? 95) || (b =? 46) || (b =? 45) || (b =? 126).

Definition quote_byte (b : N) : str :=
  if unreserved b then [b]
  else if b =? 32 then [43]
  else [37; hex_digit (b / 16); hex_digit (b mod 16)].

(** [urllib.parse.quote_plus] *)
Definition quote_plus (s : str) : str :=
  concat (List.map quote_byte (concat (List.map utf8_encode s))).

Definition google_exercise_link (ex : str) : str :=
  let q := quote_plus (u "site:musclewiki.com " ++ ex) in
  u "https://www.google.com/search?q=" ++ q.

Definition google_ref_link (term suffix : str) : str :=
  let q := quote_plus (term ++ u " " ++ suffix) in
  u "https://www.google.com/search?q=" ++ q.

(** ** Fixed tables *)

Definition FORM_CUES : gmap str str := list_to_map [
  (u "Seated Cable Rows", u "Back straight, squeeze shoulder blades.");
  (u "Lat Pulldown", u "Chest up; pull bar to upper chest; no swing.");
  (u "DB Bent-Over Row", u "Hinge hips, neutral spine, pull to waist.");
  (u "Dumbbell Bicep Curls", u "Elbows tucked; no swing.");
  (u "Face Pulls", u "Lead with elbows; rope to forehead.");
  (u "Dumbbell Shoulder Press", u "No back arch; smooth press.");
  (u "Dumbbell Bench Press", u "Lower to chest; don’t flare elbows.");
  (u "Push Up", u "Straight line; don’t sag hips.");
  (u "Squat", u "Chest tall; knees out; hips back.");
  (u "Leg Press", u "Feet shoulder-width; full control.");
  (u "Lunge", u "Step forward; knee over ankle.");
  (u "Romanian Deadlift", u "Soft knees; hinge; hamstring stretch.");
  (u "Plank", u "Hips level; brace core.");
  (u "Side Plank", u "Stack shoulders & hips.");
  (u "Kettlebell Swings", u "Hinge; snap glutes; don’t squat.");
  (u "DB Thrusters", u "Full squat then press overhead.");
  (u "Jump Rope", u "Light bounce; upright.")
].

(** The [sets] entry of a prescription is a number or a word. *)
Inductive sets_value :=
  | SetsInt (n : nat)
  | SetsStr (s : str).

Definition sets_str (v : sets_value) : str :=
  match v with
  | SetsInt n => str_of_nat n
  | SetsStr s => s
  end.

Record prescription := { sets : sets_value; reps : str; rest : str }.

Definition rx (n : nat) (r t : string) : prescription :=
  {| sets := SetsInt n; reps := u r; rest := u t |}.
Definition emom (r : string) : prescription :=
  {| sets := SetsStr (u "EMOM"); reps := u r; rest := u "balance of min" |}.

Definition EXERCISE_PRESCRIPTIONS : gmap str prescription := list_to_map [
  (u "Seated Cable Rows", rx 3 "10–12" "60–90s");
  (u "Lat Pulldown", rx 3 "10–12" "60–90s");
  (u "DB Bent-Over Row", rx 3 "10–12" "60–90s");
  (u "Dumbbell Bicep Curls", rx 3 "12–15" "45s");
  (u "Face Pulls", rx 3 "12–15" "45s");
  (u "Dumbbell Shoulder Press", rx 3 "10–12" "60s");
  (u "Dumbbell Bench Press", rx 3 "10–12" "60–90s");
  (u "Push Up", rx 3 "10–15" "45–60s");
  (u "Squat", rx 3 "10–12" "90s");
  (u "Leg Press", rx 3 "10–12" "90s");
  (u "Lunge", rx 3 "10/leg" "60s");
  (u "Romanian Deadlift", rx 3 "10–12" "90s");
  (u "Plank", rx 3 "30–45s hold" "30s");
  (u "Side Plank", rx 3 "20–30s/side" "30s");
  (u "Kettlebell Swings", emom "10 reps/min");
  (u "DB Thrusters", emom "8 reps/min");
  (u "Jump Rope", emom "20 skips/min")
].

Definition WARMUPS : gmap str (list str) := list_to_map [
  (u "pull", [u "Arm Circles"; u "Cat–Cow"]);
  (u "push", [u "Arm Circles"; u "Doorway Chest Stretch"]);
  (u "legs", [u "Standing Quad Stretch"; u "Hamstring Stretch"]);
  (u "cardio", [u "Arm Circles"; u "Standing Quad Stretch"]);
  (u "general", [u "Arm Circles"; u "Cat–Cow"])
].

Definition COOLDOWNS : gmap str (list str) := list_to_map [
  (u "pull", [u "Child’s pose"; u "Hamstring Stretch"]);
  (u "push", [u "Doorway Chest Stretch"; u "Child’s pose"]);
  (u "legs", [u "Standing Quad Stretch"; u "Hamstring Stretch"; u "Figure-4 Stretch"]);
  (u "cardio", [u "Child’s pose"; u "Hamstring Stretch"]);
  (u "general", [u "Child’s pose"; u "Hamstring Stretch"])
].

(** ** Message renderer *)

Definition prescription_str (p : prescription) : str :=
  sets_str (sets p) ++ u " × " ++ reps p ++ u " | Rest: " ++ rest p.

(** The optional fragment for a target column read with [r.get(col, "")]. *)
Definition target_fragment (label : str) (v : option cell) : str :=
  match v with
  | Some c => if truthy (cell_str c) then label ++ cell_str c else []
  | None => []
  end.

(** The body of the loop over the rows of the selected day. *)
Definition render_row (r : PlanRow) : str :=
  let ex := strip (cell_str (Exercise r)) in
  let url := google_exercise_link ex in
  let cue := default [] (FORM_CUES !! ex) in
  let details :=
    u "- *" ++ ex ++ u "*\n  " ++ url ++ u "\n  Primary: "
      ++ cell_str (Primary_Target r) in
  let details := details ++ target_fragment (u " | Secondary: ") (Secondary_Target r) in
  let details := details ++ target_fragment (u " | Tertiary: ") (Tertiary_Target r) in
  let details := if truthy cue then details ++ u "\n  Form Cue: " ++ cue else details in
  match EXERCISE_PRESCRIPTIONS !! ex with
  | Some pres => details ++ u "\n  Prescription: " ++ prescription_str pres
  | None => details
  end.

Definition cardio_exercises : list str :=
  [u "Kettlebell Swings"; u "DB Thrusters"; u "Jump Rope"].

(** The body of the loop of the cardio branch. *)
Definition render_cardio (ex : str) : str :=
  let url := google_exercise_link ex in
  let cue := default [] (FORM_CUES !! ex) in
  let pres_str :=
    match EXERCISE_PRESCRIPTIONS !! ex with
    | Some pres => prescription_str pres
    | None => []
    end in
  u "- *" ++ ex ++ u "*\n  " ++ url ++ u "\n  Form Cue: " ++ cue
    ++ u "\n  Prescription: " ++ pres_str.

Definition day_is (day : str) (r : PlanRow) : bool :=
  match Day r with
  | Text s => bool_decide (s = day)
  | NaN => false
  end.

Definition table_for (t : gmap str (list str)) (typ : str) : list str :=
  match t !! typ with
  | Some l => l
  | None => default [] (t !! u "general")
  end.

(** The entries of the main-workout block. *)
Definition main_lines (df : DataFrame) (day : str) : list str :=
  let sub := List.filter (day_is day) df in
  let typ := classify_day day in
  let lines := List.map render_row sub in
  if bool_decide (typ = u "cardio") then List.map render_cardio cardio_exercises
  else lines.

Definition build_message_for_day (df : DataFrame) (day : str) : str :=
  let typ := classify_day day in
  let warm := List.map (fun w => u "• " ++ w ++ u "\n  " ++ google_ref_link w (u "warm up"))
                       (table_for WARMUPS typ) in
  let cool := List.map (fun c => u "• " ++ c ++ u "\n  " ++ google_ref_link c (u "stretch"))
                       (table_for COOLDOWNS typ) in
  let lines := main_lines df day in
  u "📅 *" ++ day ++ u "*\n\n"
    ++ u "🔥 *Warm-up*\n" ++ join (u "\n") warm ++ u "\n\n"
    ++ u "🏋️ *Main Workout*\n" ++ join (u "\n") lines ++ u "\n\n"
    ++ u "🧊 *Cool-down*\n" ++ join (u "\n") cool ++ u "\n\n"
    ++ u "Reply *DONE* when finished 💪".

(** ** Message chunker *)

(** The flush guarded by [if cur:] / [if block:]. *)
Definition flush (cur : str) : list str :=
  if truthy cur then [rstrip cur] else [].

(** The inner loop over the lines of an oversized paragraph, with the
    final guarded flush; the parts are listed in the order appended. *)
Fixpoint pack_lines (limit : Z) (block : str) (lines : list str) : list str :=
  match lines with
  | [] => flush block
  | ln :: more =>
    let addl := ln ++ [nl] in
    if (len block + len addl <=? limit)%Z
    then pack_lines limit (block ++ addl) more
    else rstrip block :: pack_lines limit addl more
  end.

(** The outer loop over the paragraphs, with the final guarded flush. *)
Fixpoint pack_paras (limit : Z) (cur : str) (paras : list str) : list str :=
  match paras with
  | [] => flush cur
  | p :: more =>
    let add := p ++ [nl; nl] in
    if (len cur + len add <=? limit)%Z
    then pack_paras limit (cur ++ add) more
    else
      flush cur ++
      (if (len add >? limit)%Z
       then pack_lines limit [] (split_char nl (p ++ [nl])) ++ pack_paras limit [] more
       else pack_paras limit add more)
  end.

(** The parts before the headers are added. *)
Definition chunk_bodies (body : str) (limit : Z) : list str :=
  pack_paras limit [] (split_double nl body).

Definition part_header (i total : nat) : str :=
  u "(Part " ++ str_of_nat (i + 1) ++ u "/" ++ str_of_nat total ++ u ")\n\n".

Definition add_headers (parts : list str) : list str :=
  if (1 <? length parts)%nat
  then imap (fun i pt => part_header i (length parts) ++ pt) parts
  else parts.

Definition chunk_message (body : str) (limit : Z) : list str :=
  add_headers (chunk_bodies body limit).

Definition MAX_CHARS_default : Z := 1500.

(** ** Exceptions *)

Inductive exn :=
  | ZeroDivisionError
  | IndexError
  | RuntimeError (msg : str)
  | TwilioError.

Inductive result (A : Type) :=
  | Ok (a : A)
  | Raise (e : exn).
Arguments Ok {A} a.
Arguments Raise {A} e.

(** ** Day selector *)

(** The content of the state file [last_day.json]. *)
Record RunState := { last_day : str; rest_today : bool }.

(** The state file is [None] when it does not exist.  The function returns
    its result and the state file it leaves. *)
Definition pick_day_for_today (days : list str) (weekday : nat)
    (file : option RunState) : result str * option RunState :=
  match length days with
  | O => (Raise ZeroDivisionError, file)
  | S _ =>
    let idx := (weekday mod length days)%nat in
    let by_index := match days !! idx with
                    | Some d => Ok d
                    | None => Raise IndexError
                    end in
    match file with
    | Some state =>
      if rest_today state
      then (Ok (last_day state),
            Some {| last_day := last_day state; rest_today := false |})
      else (by_index, file)
    | None => (by_index, file)
    end
  end.

(** ** Delivery client *)

Record Env := {
  TWILIO_ACCOUNT_SID : option str;
  TWILIO_AUTH_TOKEN : option str;
  TWILIO_WHATSAPP_FROM : option str;
  WHATSAPP_TO_LIST : option str
}.

Record message := { from_ : str; to : str; body : str }.

(** [not v] for the result of [os.getenv]. *)
Definition missing (v : option str) : bool :=
  match v with
  | Some s => negb (truthy s)
  | None => true
  end.

(** [not l] for a list. *)
Definition no_items {A} (l : list A) : bool :=
  match l with
  | [] => true
  | _ :: _ => false
  end.

Definition recipients (env : Env) : list str :=
  List.map strip
    (List.filter (fun x => truthy (strip x))
       (split_char 44 (default [] (WHATSAPP_TO_LIST env)))).

Section Delivery.

(** The provider: [create m] is the identifier it assigns, or [None] when
    the call raises. *)
Variable create : message -> option str.

(** Both loops; the second component lists the messages submitted. *)
Fixpoint send_parts (from_num to_ : str) (parts : list str) : result unit * list message :=
  match parts with
  | [] => (Ok tt, [])
  | part :: more =>
    let m := {| from_ := from_num; to := to_; body := part |} in
    match create m with
    | Some _ =>
      let '(r, sent) := send_parts from_num to_ more in (r, m :: sent)
    | None => (Raise TwilioError, [m])
    end
  end.

Fixpoint send_all (from_num : str) (to_list : list str) (parts : list str)
    : result unit * list message :=
  match to_list with
  | [] => (Ok tt, [])
  | to_ :: more =>
    match send_parts from_num to_ parts with
    | (Ok _, sent) =>
      let '(r, sent') := send_all from_num more parts in (r, sent ++ sent')
    | (Raise e, sent) => (Raise e, sent)
    end
  end.

Definition send_whatsapp_parts (env : Env) (parts : list str)
    : result unit * list message :=
  let sid := TWILIO_ACCOUNT_SID env in
  let tok := TWILIO_AUTH_TOKEN env in
  let from_num := default (u "whatsapp:+14155238886") (TWILIO_WHATSAPP_FROM env) in
  let to_list := recipients env in
  if missing sid || missing tok || no_items to_list
  then (Raise (RuntimeError (u "Missing Twilio creds in .env")), [])
  else send_all from_num to_list parts.

(** ** The automatic run *)

Definition job_send_today (df : DataFrame) (limit : Z) (weekday : nat)
    (file : option RunState) (env : Env)
    : result unit * option RunState * list message :=
  let days := ordered_unique_days df in
  match pick_day_for_today days weekday file with
  | (Raise e, file') => (Raise e, file', [])
  | (Ok day, file') =>
    let body := build_message_for_day df day in
    let parts := chunk_message body limit in
    match send_whatsapp_parts env parts with
    | (Raise e, sent) => (Raise e, file', sent)
    | (Ok _, sent) =>
      (Ok tt, Some {| last_day := day; rest_today := false |}, sent)
    end
  end.

End Delivery.

(** ** Reading the parts back *)

(** The text of a part after its header line and the blank line under it:
    what follows the first blank-line separator. *)
Fixpoint after_blank (s : str) : str :=
  match s with
  | [] => []
  | x :: r =>
    match r with
    | y :: r' => if (x =? nl) && (y =? nl) then r' else after_blank r
    | [] => []
    end
  end.

(** The parts without their headers; there are headers when more than one
    part was produced. *)
Definition part_bodies (parts : list str) : list str :=
  if (1 <? length parts)%nat then List.map after_blank parts else parts.

(** The bodies put together again with a blank line between two parts. *)
Definition rebuild (parts : list str) : str :=
  join [nl; nl] (part_bodies parts).

(** The paragraph ends in a character that [rstrip] keeps. *)
Definition ends_nonspace (p : str) : bool :=
  match rev p with
  | c :: _ => negb (isspace c)
  | [] => false
  end.

(** The lines of a blob, and the test that none is longer than the limit. *)
Definition lines_within (body : str) (limit : Z) : bool :=
  forallb (fun ln => (len ln <=? limit)%Z) (split_char nl body).

(** ** Sample blobs *)

(** Two paragraphs of 1498 and 10 characters. *)
Definition two_paragraphs : str := repeat 97 1498 ++ [nl; nl] ++ repeat 98 10.

(** The size bound read on the parts as returned: every part is within the
    limit unless some line of the blob is longer than the limit. *)
Definition returned_parts_bounded (body : str) (limit : Z) : Prop :=
  forall pt, In pt (chunk_message body limit) ->
    (len pt <= limit)%Z \/ lines_within body limit = false.

(** Five paragraphs of 400 characters each. *)
Definition five_paragraphs : str :=
  join [nl; nl] (repeat (repeat 97 400) 5).

(** ** Reading the alias map *)

(** The days of one category, in the order of the plan. *)
Definition cat_days (c : str) (days : list str) : list str :=
  List.filter (fun d => bool_decide (classify_day d = c)) days.

(** The categories that occur among the days. *)
Definition occurring (days : list str) : list str :=
  List.filter (fun c => negb (no_items (cat_days c days))) categories.

(** What the alias map is to hold: the numbered alias [c ++ str(k+1)] for
    the day at index [k] among the days of category [c], and the bare name
    of a category for its first day. *)
Definition alias_rel (days : list str) (key d : str) : Prop :=
  (exists c k, In c categories /\ key = c ++ str_of_nat (S k) /\
               cat_days c days !! k = Some d) \/
  (In key categories /\ head (cat_days key days) = Some d).

(** ** Reading the entries *)

(** The pieces of an entry of the main-workout block. *)
Definition entry_head (ex : str) : str :=
  u "- *" ++ ex ++ u "*\n  " ++ google_exercise_link ex.

Definition cue_line (ex : str) : str :=
  match FORM_CUES !! ex with
  | Some cue => if truthy cue then u "\n  Form Cue: " ++ cue else []
  | None => []
  end.

Definition prescription_line (ex : str) : str :=
  match EXERCISE_PRESCRIPTIONS !! ex with
  | Some pres => u "\n  Prescription: " ++ prescription_str pres
  | None => []
  end.

(** ** The size of the parts *)

(** A part is within the limit, or it is one line of [lines0] that is
    longer than the limit, with its trailing whitespace removed. *)
Definition bounded_or_line (L : Z) (lines0 : list str) (pt : str) : Prop :=
  (len pt <= L)%Z \/
  exists ln, In ln lines0 /\ (L < len ln)%Z /\ pt = rstrip ln.

(** The block being filled is within the limit or holds one line only. *)
Definition block_ok (L : Z) (lines0 : list str) (block : str) : Prop :=
  (len block <= L)%Z \/ exists ln, In ln lines0 /\ block = ln ++ [nl].

(** The exception of the bound, for a blob with paragraphs [paras0]. *)
Definition bounded_or_long_line (L : Z) (paras0 : list str) (pt : str) : Prop :=
  (len pt <= L)%Z \/
  exists p ln, In p paras0 /\ In ln (split_char nl (p ++ [nl])) /\
               (L < len ln)%Z /\ pt = rstrip ln.

(** ** Groups of paragraphs *)

(** The blank-line separator. *)
Definition nn : str := [nl; nl].

(** The paragraphs of a group, each followed by its separator: the value of
    [cur] while the group is being filled. *)
Definition glue (g : list str) : str := concat (List.map (fun p => p ++ nn) g).

(** The paragraph fits within the limit with its separator and ends in a
    character that is kept. *)
Definition fits (L : Z) (p : str) : Prop :=
  (len p + 2 <= L)%Z /\ ends_nonspace p = true.

(** ** The loop of the alias builder *)

(** What holds of the loop state after the days [ds]. *)
Record alias_inv (ds : list str) (st : alias_state) : Prop := {
  inv_counts : forall c, In c categories ->
    counts st !! c = Some (length (cat_days c ds));
  inv_lookup : forall key d, alias_to_day st !! key = Some d <-> alias_rel ds key d;
  inv_size : size (alias_to_day st) = (length ds + length (occurring ds))%nat
}.

(** ** Missing credentials *)

Definition credentials_missing (env : Env) : Prop :=
  missing (TWILIO_ACCOUNT_SID env) = true \/
  missing (TWILIO_AUTH_TOKEN env) = true \/
  recipients env = [].

(** ** Sample plans and states *)

(** Five unique days, as in the scenario of the specification. *)
Definition five_days : list str :=
  [u "Pull Day"; u "Push Day"; u "Leg Day"; u "Cardio Day"; u "Core Day"].

(** A row whose Day cell is blank. *)
Definition blank_row : PlanRow :=
  {| Day := NaN; Exercise := Text (u "Plank"); Primary_Target := Text (u "Core");
     Secondary_Target := None; Tertiary_Target := None |}.

(** An environment with nothing configured. *)
Definition no_env : Env :=
  {| TWILIO_ACCOUNT_SID := None; TWILIO_AUTH_TOKEN := None;
     TWILIO_WHATSAPP_FROM := None; WHATSAPP_TO_LIST := None |}.

(** A table with two rows for a cardio day. *)
Definition cardio_plan : DataFrame :=
  [ {| Day := Text (u "Cardio HIIT"); Exercise := Text (u "Burpees");
       Primary_Target := Text (u "Full Body");
       Secondary_Target := Some (Text (u "Core")); Tertiary_Target := Some NaN |};
    {| Day := Text (u "Cardio HIIT"); Exercise := Text (u "Kettlebell Swings");
       Primary_Target := Text (u "Glutes");
       Secondary_Target := Some NaN; Tertiary_Target := Some NaN |} ].

(** A row whose Secondary and Tertiary cells are blank. *)
Definition blank_targets_row : PlanRow :=
  {| Day := Text (u "Pull Day"); Exercise := Text (u "Lat Pulldown");
     Primary_Target := Text (u "Lats");
     Secondary_Target := Some NaN; Tertiary_Target := Some NaN |}.

(** ** Manual sends and preview *)

Section Commands.

Variable create : message -> option str.

(** What the three sending paths do once the day is known: render, chunk,
    send, and write the state file when every send went through. *)
Definition deliver_day (df : DataFrame) (limit : Z) (file : option RunState)
    (env : Env) (day : str) : result unit * option RunState * list message :=
  let body := build_message_for_day df day in
  let parts := chunk_message body limit in
  match send_whatsapp_parts create env parts with
  | (Raise e, sent) => (Raise e, file, sent)
  | (Ok _, sent) =>
    (Ok tt, Some {| last_day := day; rest_today := false |}, sent)
  end.

(** The body of the [--send-key] branch (what it prints is left out). *)
Definition cmd_send_key (df : DataFrame) (limit : Z) (file : option RunState)
    (env : Env) (arg : str) : result unit * option RunState * list message :=
  let alias_map := fst (build_alias_map df) in
  let key := lower (strip arg) in
  match alias_map !! key with
  | None => (Ok tt, file, [])
  | Some day => deliver_day df limit file env day
  end.

(** The body of the [--send-day] branch. *)
Definition cmd_send_day (df : DataFrame) (limit : Z) (file : option RunState)
    (env : Env) (arg : str) : result unit * option RunState * list message :=
  let days := ordered_unique_days df in
  let day := strip arg in
  if decide (day ∈ days) then deliver_day df limit file env day
  else (Ok tt, file, []).

End Commands.

(** The body of the [--preview] branch: the parts it prints and the state
    file it leaves. *)
Definition cmd_preview (df : DataFrame) (limit : Z) (weekday : nat)
    (file : option RunState) : result (list str) * option RunState :=
  let days := ordered_unique_days df in
  match pick_day_for_today days weekday file with
  | (Raise e, file') => (Raise e, file')
  | (Ok day, file') =>
    (Ok (chunk_message (build_message_for_day df day) limit), file')
  end.

(** ** Reading the days, the links and the sends *)

(** The values of a list in the order of their first occurrence. *)
Fixpoint first_seen (l : list str) : list str :=
  match l with
  | [] => []
  | d :: r => d :: List.filter (fun x => negb (bool_decide (x = d))) (first_seen r)
  end.

(** A Unicode scalar value: a code point that is not a surrogate (U+D800 to
    U+DFFF).  These are the characters UTF-8 encodes; on a lone surrogate
    Python's [quote_plus] raises [UnicodeEncodeError] and no link is made. *)
Definition scalar_value (c : char) : Prop :=
  c < 55296 \/ (57343 < c /\ c < 1114112).

(** The characters a quoted query is made of: the unreserved ones (among
    them the digits and capital letters of an escape), [+] and [%]. *)
Definition url_char (c : char) : bool :=
  unreserved c || (c =? 43) || (c =? 37).

(** Every message the two loops are to submit, in their order. *)
Definition schedule (from_num : str) (to_list parts : list str) : list message :=
  flat_map (fun to_ =>
              List.map (fun part => {| from_ := from_num; to := to_; body := part |})
                       parts)
           to_list.

(** The sender used: the configured one, or the sandbox number. *)
Definition sender (env : Env) : str :=
  default (u "whatsapp:+14155238886") (TWILIO_WHATSAPP_FROM env).

(** A state file that asks for the one-time override. *)
Definition resting : option RunState :=
  Some {| last_day := u "Push Day"; rest_today := true |}.

(** A table with one row for each of five days. *)
Definition five_day_plan : DataFrame :=
  List.map (fun d => {| Day := Text d; Exercise := Text (u "Plank");
                        Primary_Target := Text (u "Core");
                        Secondary_Target := None; Tertiary_Target := None |})
           five_days.

(** A configured environment with two recipients. *)
Definition two_recipients : Env :=
  {| TWILIO_ACCOUNT_SID := Some (u "AC123"); TWILIO_AUTH_TOKEN := Some (u "secret");
     TWILIO_WHATSAPP_FROM := None;
     WHATSAPP_TO_LIST := Some (u " whatsapp:+911234567890 , ,whatsapp:+919876543210") |}.

(** ** Reading the paragraphs of a message *)

(** A text made of non-empty lines: it begins with a character that is not
    a line break, never has two line breaks in a row and does not end in
    one. *)
Fixpoint tight (s : str) : bool :=
  match s with
  | [] => false
  | x :: r =>
    negb (x =? nl) &&
    match r with
    | [] => true
    | y :: r' => if y =? nl then tight r' else tight r
    end
  end.

(** No line break in the text. *)
Definition one_line (s : str) : Prop := List.Forall (fun c => c <> nl) s.

(** The cells of a row hold no line break. *)
Definition plain_row (r : PlanRow) : Prop :=
  one_line (cell_str (Exercise r)) /\
  one_line (cell_str (Primary_Target r)) /\
  (forall c, Secondary_Target r = Some c -> one_line (cell_str c)) /\
  (forall c, Tertiary_Target r = Some c -> one_line (cell_str c)).

(** The five blocks a message is put together from. *)
Definition message_blocks (df : DataFrame) (day : str) : list str :=
  let typ := classify_day day in
  let warm := List.map (fun w => u "• " ++ w ++ u "\n  " ++ google_ref_link w (u "warm up"))
                       (table_for WARMUPS typ) in
  let cool := List.map (fun c => u "• " ++ c ++ u "\n  " ++ google_ref_link c (u "stretch"))
                       (table_for COOLDOWNS typ) in
  [ u "📅 *" ++ day ++ u "*";
    u "🔥 *Warm-up*\n" ++ join (u "\n") warm;
    u "🏋️ *Main Workout*\n" ++ join (u "\n") (main_lines df day);
    u "🧊 *Cool-down*\n" ++ join (u "\n") cool;
    u "Reply *DONE* when finished 💪" ].

(** The lines of an entry rendered from a row. *)
Definition entry_lines (r : PlanRow) : list str :=
  let ex := strip (cell_str (Exercise r)) in
  [ u "- *" ++ ex ++ u "*";
    u "  " ++ google_exercise_link ex;
    u "  Primary: " ++ cell_str (Primary_Target r)
      ++ target_fragment (u " | Secondary: ") (Secondary_Target r)
      ++ target_fragment (u " | Tertiary: ") (Tertiary_Target r) ]
  ++ match FORM_CUES !! ex with
     | Some cue => if truthy cue then [u "  Form Cue: " ++ cue] else []
     | None => []
     end
  ++ match EXERCISE_PRESCRIPTIONS !! ex with
     | Some pres => [u "  Prescription: " ++ prescription_str pres]
     | None => []
     end.

(** The test for [one_line]. *)
Definition no_break (s : str) : bool := forallb (fun c => negb (c =? nl)) s.

(** A plan whose cells hold no line break. *)
Definition plain_plan (df : DataFrame) : Prop :=
  List.Forall (fun r => one_line (cell_str (Day r)) /\ plain_row r) df.

(** No rest override is pending in the state file. *)
Definition no_override (file : option RunState) : Prop :=
  match file with
  | Some st => rest_today st = false
  | None => True
  end.

(** ** What a delivery leaves *)

Section DeliveryOutcome.

Variable create : message -> option str.

(** The provider took the message. *)
Definition accepted (m : message) : Prop := create m <> None.

(** The outcome of a run of the loops over [todo]: all of it submitted and
    accepted, or an accepted beginning followed by the message refused. *)
Definition fail_fast (todo : list message) (out : result unit * list message) : Prop :=
  match fst out with
  | Ok _ => snd out = todo /\ List.Forall accepted todo
  | Raise e =>
    e = TwilioError /\
    exists before m after,
      todo = before ++ m :: after /\
      snd out = before ++ [m] /\
      List.Forall accepted before /\ create m = None
  end.

End DeliveryOutcome.


(** ** The [--list-keys] branch *)

(** [s.ljust(width)] *)
Definition ljust (width : nat) (s : str) : str :=
  s ++ repeat 32 (width - length s).

(** [max(len(a) for a,_ in rows) if rows else 8] *)
Definition listing_width (rows : list (str * str)) : nat :=
  match rows with
  | [] => 8
  | _ => List.list_max (List.map (fun r => length (fst r)) rows)
  end.

Definition simple_aliases : list str := [u "pull"; u "push"; u "legs"; u "cardio"].

(** One printed line: the key padded to the width, an arrow, the day. *)
Definition key_line (width : nat) (a d : str) : str :=
  u "  " ++ ljust width a ++ u " -> " ++ d.

(** The lines the branch prints. *)
Definition cmd_list_keys (df : DataFrame) : list str :=
  let (alias_map, rows) := build_alias_map df in
  let width := listing_width rows in
  [u "Available aliases:"]
  ++ List.map (fun r => key_line width (fst r) (snd r)) rows
  ++ flat_map (fun simple =>
                 match alias_map !! simple with
                 | Some d => [key_line width simple d]
                 | None => []
                 end) simple_aliases.

(** The keys the listing shows, each with its day, in the order printed. *)
Definition listed_keys (df : DataFrame) : list (str * str) :=
  snd (build_alias_map df)
  ++ flat_map (fun simple =>
                 match fst (build_alias_map df) !! simple with
                 | Some d => [(simple, d)]
                 | None => []
                 end) simple_aliases.

(** ** Reading the lines of an entry *)

(** The label of a line: what stands before its first colon. *)
Definition line_label (l : str) : str := hd [] (split_char 58 l).

(** The labels of the lines of an entry, the name line first. *)
Definition sub_line_labels (e : str) : list str :=
  List.map line_label (split_char nl e).

(** Two entries have the same sub-line structure: under the name line, as
    many lines, with the same labels in the same order. *)
Definition same_sub_lines (a b : str) : Prop :=
  tl (sub_line_labels a) = tl (sub_line_labels b).

(** A row for one of the exercises of the cardio branch. *)
Definition kettlebell_row : PlanRow :=
  {| Day := Text (u "Cardio HIIT"); Exercise := Text (u "Kettlebell Swings");
     Primary_Target := Text (u "Glutes");
     Secondary_Target := Some NaN; Tertiary_Target := Some NaN |}.

(** The fixed entries read as having the sub-line structure of the entries
    rendered from rows: each has the lines a row of its exercise gives. *)
Definition fixed_entries_like_rows (df : DataFrame) : Prop :=
  forall r, In r df ->
    In (strip (cell_str (Exercise r))) cardio_exercises ->
    same_sub_lines (render_cardio (strip (cell_str (Exercise r)))) (render_row r).

(** * Properties *)

(** Literals are evaluated to their code points where a proof compares them. *)
Ltac eval_lits :=
  repeat match goal with
  | |- context [u ?s] =>
      let v := eval vm_compute in (u s) in change (u s) with v
  | H : context [u ?s] |- _ =>
      let v := eval vm_compute in (u s) in change (u s) with v in H
  end.

(** ** Day classifier *)

Lemma classify_day_lower (d d' : str) :
  lower d' = lower d -> classify_day d' = classify_day d.
Proof. unfold classify_day. intros ->. reflexivity. Qed.

Lemma lower_char_idem (c : char) : lower_char (lower_char c) = lower_char c.
Proof.
  unfold lower_char.
  destruct ((65 <=? c) && (c <=? 90)) eqn:E; [|rewrite E; reflexivity].
  apply andb_true_iff in E as [E1 E2].
  apply N.leb_le in E1, E2.
  replace ((65 <=? c + 32) && (c + 32 <=? 90)) with false; [reflexivity|].
  symmetry. apply andb_false_iff. right. apply N.leb_gt. lia.
Qed.

Lemma lower_idem (d : str) : lower (lower d) = lower d.
Proof.
  unfold lower. rewrite List.map_map. apply List.map_ext. apply lower_char_idem.
Qed.

(** C6: classification is total, returns one of the five categories, and
    is decided on the lower-cased label by substring tests taken in the order
    pull, push, legs, cardio, the first match winning and no match giving
    general; labels that differ only in case are classified alike. *)
Theorem classify_day_priority (d : str) :
  In (classify_day d) categories /\
  (classify_day d = u "pull" <-> contains (u "pull") (lower d) = true) /\
  (classify_day d = u "push" <->
     contains (u "pull") (lower d) = false /\
     contains (u "push") (lower d) = true) /\
  (classify_day d = u "legs" <->
     contains (u "pull") (lower d) = false /\
     contains (u "push") (lower d) = false /\
     (contains (u "leg") (lower d) = true \/ contains (u "legs") (lower d) = true)) /\
  (classify_day d = u "cardio" <->
     contains (u "pull") (lower d) = false /\
     contains (u "push") (lower d) = false /\
     contains (u "leg") (lower d) = false /\
     contains (u "legs") (lower d) = false /\
     contains (u "cardio") (lower d) = true) /\
  (classify_day d = u "general" <->
     contains (u "pull") (lower d) = false /\
     contains (u "push") (lower d) = false /\
     contains (u "leg") (lower d) = false /\
     contains (u "legs") (lower d) = false /\
     contains (u "cardio") (lower d) = false) /\
  classify_day (lower d) = classify_day d /\
  (forall d', lower d' = lower d -> classify_day d' = classify_day d).
Proof.
  split; [|split; [|split; [|split; [|split; [|split; [|split]]]]]];
    try (apply classify_day_lower, lower_idem);
    try (intros d'; apply classify_day_lower);
    unfold classify_day, categories;
    destruct (contains (u "pull") (lower d)),
             (contains (u "push") (lower d)),
             (contains (u "leg") (lower d)),
             (contains (u "legs") (lower d)),
             (contains (u "cardio") (lower d));
    cbn [orb]; eval_lits; cbn [In];
    intuition (congruence || discriminate).
Qed.

(** ** Day selector *)

Lemma pick_day_by_index (days : list str) (wd : nat) :
  days <> [] ->
  exists d, days !! (wd mod length days)%nat = Some d.
Proof.
  intros Hne.
  assert (Hlen : (length days <> 0)%nat) by (destruct days; simpl; congruence).
  apply lookup_lt_is_Some_2. apply Nat.mod_upper_bound. exact Hlen.
Qed.

Lemma pick_day_default (days : list str) (wd : nat) (file : option RunState) (d : str) :
  days !! (wd mod length days)%nat = Some d ->
  match file with Some st => rest_today st = false | None => True end ->
  pick_day_for_today days wd file = (Ok d, file).
Proof.
  intros Hd Hfile. unfold pick_day_for_today.
  destruct days as [|d0 days']; [rewrite lookup_nil in Hd; discriminate|].
  cbn [length]. cbn [length] in Hd. rewrite Hd.
  destruct file as [st|]; [rewrite Hfile|]; reflexivity.
Qed.

(** C4: on a non-empty day list the selector returns the day at index
    weekday modulo the number of days when there is no state file or its
    flag is false, leaving the file as it was; with the flag set it returns
    the stored day and rewrites the file with the flag cleared, so the next
    run is back to the day chosen by index. *)
Theorem pick_day_for_today_spec (days : list str) (wd wd' : nat)
    (file : option RunState) :
  days <> [] ->
  exists d d',
    days !! (wd mod length days)%nat = Some d /\
    days !! (wd' mod length days)%nat = Some d' /\
    match file with
    | None => pick_day_for_today days wd None = (Ok d, None)
    | Some st =>
      if rest_today st then
        let cleared := Some {| last_day := last_day st; rest_today := false |} in
        pick_day_for_today days wd file = (Ok (last_day st), cleared) /\
        pick_day_for_today days wd' cleared = (Ok d', cleared)
      else pick_day_for_today days wd file = (Ok d, file)
    end.
Proof.
  intros Hne.
  destruct (pick_day_by_index days wd Hne) as [d Hd].
  destruct (pick_day_by_index days wd' Hne) as [d' Hd'].
  exists d, d'. split; [exact Hd|]. split; [exact Hd'|].
  destruct file as [st|].
  - destruct (rest_today st) eqn:Hrest.
    + split.
      * unfold pick_day_for_today.
        destruct days as [|d0 days']; [congruence|].
        cbn [length]. rewrite Hrest. destruct (_ !! _); reflexivity.
      * apply pick_day_default; [exact Hd'|reflexivity].
    + apply pick_day_default; [exact Hd|exact Hrest].
  - apply pick_day_default; [exact Hd|exact I].
Qed.

(** The scenario of the specification: weekday 2, five days, the state
    [{last_day: "Push Day", rest_today: true}]. *)
Lemma pick_day_for_today_spec_witness :
  exists d d',
    five_days !! (2 mod length five_days)%nat = Some d /\
    five_days !! (3 mod length five_days)%nat = Some d' /\
    pick_day_for_today five_days 2
      (Some {| last_day := u "Push Day"; rest_today := true |})
      = (Ok (u "Push Day"), Some {| last_day := u "Push Day"; rest_today := false |}) /\
    pick_day_for_today five_days 3
      (Some {| last_day := u "Push Day"; rest_today := false |})
      = (Ok d', Some {| last_day := u "Push Day"; rest_today := false |}).
Proof.
  apply (pick_day_for_today_spec five_days 2 3
           (Some {| last_day := u "Push Day"; rest_today := true |})).
  discriminate.
Defined.

(** The other half of the scenario: weekday 2, five days, no state file. *)
Example pick_day_no_state :
  pick_day_for_today five_days 2 None = (Ok (u "Leg Day"), None).
Proof. reflexivity. Qed.

Lemma dropna_all_missing (l : list cell) :
  Forall (fun c => c = NaN) l -> dropna l = [].
Proof.
  induction 1 as [|c l Hc _ IH]; [reflexivity|].
  subst c. exact IH.
Qed.

Lemma ordered_unique_days_all_missing (df : DataFrame) :
  Forall (fun r => Day r = NaN) df -> ordered_unique_days df = [].
Proof.
  intros H. unfold ordered_unique_days.
  rewrite dropna_all_missing; [reflexivity|].
  induction H; constructor; assumption.
Qed.

(** C10: on the empty day list the selector faults on the modulo by zero,
    whatever the state file holds; on a non-empty list it returns a day; a
    table whose Day column holds only missing values has no unique day, so an
    automatic run on it faults before anything is rendered or sent. *)
Theorem pick_day_needs_days :
  (forall wd file, pick_day_for_today [] wd file = (Raise ZeroDivisionError, file)) /\
  (forall days wd file, days <> [] ->
     exists d file', pick_day_for_today days wd file = (Ok d, file')) /\
  (forall df, Forall (fun r => Day r = NaN) df ->
     ordered_unique_days df = [] /\
     forall create limit wd file env,
       job_send_today create df limit wd file env
       = (Raise ZeroDivisionError, file, [])).
Proof.
  split; [reflexivity|]. split.
  - intros days wd file Hne.
    destruct (pick_day_for_today_spec days wd wd file Hne) as (d & d' & _ & _ & H).
    destruct file as [st|]; [destruct (rest_today st)|]; eauto.
    destruct H as [H _]. eauto.
  - intros df Hdf. pose proof (ordered_unique_days_all_missing df Hdf) as E.
    split; [exact E|]. intros. unfold job_send_today. rewrite E. reflexivity.
Qed.

Lemma pick_day_needs_days_witness :
  ordered_unique_days [blank_row; blank_row] = [] /\
  job_send_today (fun _ => None) [blank_row; blank_row] 1500 2 None no_env
  = (Raise ZeroDivisionError, None, []).
Proof.
  destruct pick_day_needs_days as (_ & _ & H).
  destruct (H [blank_row; blank_row]) as [E J].
  - repeat constructor.
  - split; [exact E|apply J].
Defined.

(** ** Delivery client *)

Section DeliveryFacts.

Variable create : message -> option str.

(** The only error the two sending loops can end in is the provider's. *)
Lemma send_parts_error (from_num to_ : str) (parts : list str) (e : exn) :
  fst (send_parts create from_num to_ parts) = Raise e -> e = TwilioError.
Proof.
  induction parts as [|part more IH]; cbn [send_parts]; [discriminate|].
  destruct (create _); [|cbn; congruence].
  destruct (send_parts create from_num to_ more) as [r sent]. exact IH.
Qed.

Lemma send_all_error (from_num : str) (to_list parts : list str) (e : exn) :
  fst (send_all create from_num to_list parts) = Raise e -> e = TwilioError.
Proof.
  induction to_list as [|to_ more IH]; cbn [send_all]; [discriminate|].
  pose proof (send_parts_error from_num to_ parts) as Hp.
  destruct (send_parts create from_num to_ parts) as [[[]|e'] sent].
  - destruct (send_all create from_num more parts) as [r sent']. exact IH.
  - cbn. intros [= <-]. apply Hp. reflexivity.
Qed.

Lemma credentials_missing_test (env : Env) :
  missing (TWILIO_ACCOUNT_SID env) || missing (TWILIO_AUTH_TOKEN env)
    || no_items (recipients env) = true
  <-> credentials_missing env.
Proof.
  unfold credentials_missing. rewrite !orb_true_iff.
  assert (no_items (recipients env) = true <-> recipients env = []) as ->
    by (destruct (recipients env); cbn; split; congruence).
  tauto.
Qed.

(** C9: the delivery client raises its missing-credentials error exactly
    when the account SID, the auth token or the recipient list is absent or
    empty, and then no message has been submitted. *)
Theorem send_whatsapp_parts_auth (env : Env) (parts : list str) :
  ((exists msg, fst (send_whatsapp_parts create env parts) = Raise (RuntimeError msg))
   <-> credentials_missing env) /\
  (forall msg, fst (send_whatsapp_parts create env parts) = Raise (RuntimeError msg) ->
     snd (send_whatsapp_parts create env parts) = []).
Proof.
  pose proof (credentials_missing_test env) as Ht.
  unfold send_whatsapp_parts.
  destruct (missing (TWILIO_ACCOUNT_SID env) || missing (TWILIO_AUTH_TOKEN env)
            || no_items (recipients env)) eqn:E.
  - split; [|reflexivity].
    split; [intros _; apply Ht; reflexivity|eauto].
  - split.
    + split.
      * intros [msg H]. apply send_all_error in H. discriminate.
      * intros H. apply Ht in H. discriminate.
    + intros msg H. apply send_all_error in H. discriminate.
Qed.

End DeliveryFacts.

(** ** Message renderer *)

Lemma startswith_app (p s : str) : startswith p (p ++ s) = true.
Proof.
  induction p as [|a p IH]; [reflexivity|].
  cbn. rewrite N.eqb_refl. exact IH.
Qed.

Lemma startswith_app_l (p s t : str) :
  startswith p s = true -> startswith p (s ++ t) = true.
Proof.
  revert s. induction p as [|a p IH]; intros s; [reflexivity|].
  destruct s as [|b s]; cbn; [discriminate|].
  rewrite !andb_true_iff. intros [H1 H2]. split; [exact H1|apply IH, H2].
Qed.

Lemma contains_app_l (n s t : str) :
  contains n s = true -> contains n (s ++ t) = true.
Proof.
  induction s as [|b s IH]; cbn [contains app].
  - rewrite orb_false_r. destruct n; [|discriminate].
    intros _. destruct t; reflexivity.
  - rewrite !orb_true_iff. intros [H|H].
    + left. apply (startswith_app_l n (b :: s) t H).
    + right. apply IH, H.
Qed.

Lemma contains_app_r (n s t : str) :
  contains n t = true -> contains n (s ++ t) = true.
Proof.
  intros H. induction s as [|b s IH]; [exact H|].
  cbn [contains app]. rewrite IH. apply orb_true_r.
Qed.

Lemma contains_self_app (n t : str) : contains n (n ++ t) = true.
Proof.
  destruct (n ++ t) eqn:E; cbn [contains]; rewrite <- E, startswith_app; reflexivity.
Qed.

Lemma render_row_parts (r : PlanRow) :
  render_row r =
    entry_head (strip (cell_str (Exercise r)))
    ++ u "\n  Primary: " ++ cell_str (Primary_Target r)
    ++ target_fragment (u " | Secondary: ") (Secondary_Target r)
    ++ target_fragment (u " | Tertiary: ") (Tertiary_Target r)
    ++ cue_line (strip (cell_str (Exercise r)))
    ++ prescription_line (strip (cell_str (Exercise r))).
Proof.
  unfold render_row, entry_head, cue_line, prescription_line.
  set (ex := strip (cell_str (Exercise r))).
  destruct (FORM_CUES !! ex) as [cue|]; cbn [from_option id];
    [destruct (truthy cue)|cbn [truthy]];
    destruct (EXERCISE_PRESCRIPTIONS !! ex);
    rewrite <- ?app_assoc, ?app_nil_r; reflexivity.
Qed.

(** Every entry rendered from a row has its [Primary:] sub-line. *)
Lemma render_row_primary (r : PlanRow) :
  contains (u "Primary: ") (render_row r) = true.
Proof.
  rewrite render_row_parts. unfold entry_head. rewrite <- !app_assoc.
  do 4 apply contains_app_r.
  change (u "\n  Primary: ") with (u "\n  " ++ u "Primary: ").
  rewrite <- app_assoc. apply contains_app_r, contains_self_app.
Qed.

Ltac eval_tables :=
  repeat match goal with
  | |- context [FORM_CUES !! ?k] =>
      let v := eval vm_compute in (FORM_CUES !! k) in
      change (FORM_CUES !! k) with v
  | |- context [EXERCISE_PRESCRIPTIONS !! ?k] =>
      let v := eval vm_compute in (EXERCISE_PRESCRIPTIONS !! k) in
      change (EXERCISE_PRESCRIPTIONS !! k) with v
  end.

Lemma render_cardio_parts :
  Forall (fun ex => render_cardio ex = entry_head ex ++ cue_line ex ++ prescription_line ex)
         cardio_exercises.
Proof.
  unfold cardio_exercises.
  repeat constructor;
    unfold render_cardio, entry_head, cue_line, prescription_line;
    eval_tables; cbn [from_option id truthy];
    rewrite <- !app_assoc; reflexivity.
Qed.

Lemma main_lines_cardio (df : DataFrame) (day : str) :
  classify_day day = u "cardio" ->
  main_lines df day = List.map render_cardio cardio_exercises.
Proof.
  intros H. unfold main_lines. rewrite H.
  rewrite bool_decide_eq_true_2 by reflexivity. reflexivity.
Qed.

(** The fixed entries stand for no row of the table: they have no line of
    targets, which every entry rendered from a row has. *)
Remark cardio_entries_no_targets :
  forallb (fun e => negb (contains (u "Primary: ") e))
          (List.map render_cardio cardio_exercises) = true.
Proof. vm_compute. reflexivity. Qed.

(** ** Rows with a blank optional cell *)

(** C8 on the code: a target fragment is rendered whenever [str] of the
    cell is not empty, and [str] of a blank cell is [nan]; so at a row whose
    Secondary and Tertiary cells are blank in the sheet both fragments are
    rendered, with the text [nan].  The form-cue and prescription sub-lines
    are there exactly when the tables have the exercise. *)
Theorem render_row_blank_targets :
  (forall r,
     render_row r =
       entry_head (strip (cell_str (Exercise r)))
       ++ u "\n  Primary: " ++ cell_str (Primary_Target r)
       ++ target_fragment (u " | Secondary: ") (Secondary_Target r)
       ++ target_fragment (u " | Tertiary: ") (Tertiary_Target r)
       ++ cue_line (strip (cell_str (Exercise r)))
       ++ prescription_line (strip (cell_str (Exercise r)))) /\
  target_fragment (u " | Secondary: ") (Some NaN) = u " | Secondary: nan" /\
  target_fragment (u " | Secondary: ") (Some (Text [])) = [] /\
  target_fragment (u " | Secondary: ") None = [] /\
  main_lines [blank_targets_row] (u "Pull Day") =
    [u "- *Lat Pulldown*\n  https://www.google.com/search?q=site%3Amusclewiki.com+Lat+Pulldown\n  Primary: Lats | Secondary: nan | Tertiary: nan\n  Form Cue: Chest up; pull bar to upper chest; no swing.\n  Prescription: 3 × 10–12 | Rest: 60–90s"].
Proof.
  split; [exact render_row_parts|].
  repeat split; vm_compute; reflexivity.
Qed.

(** ** Message chunker: strings *)

Lemma len_app (s t : str) : len (s ++ t) = (len s + len t)%Z.
Proof. unfold len. rewrite length_app. lia. Qed.

Lemma len_nonneg (s : str) : (0 <= len s)%Z.
Proof. unfold len. lia. Qed.

Lemma lstrip_length (s : str) : (length (lstrip s) <= length s)%nat.
Proof.
  induction s as [|c s IH]; cbn; [lia|].
  destruct (isspace c); cbn; lia.
Qed.

Lemma rstrip_len (s : str) : (len (rstrip s) <= len s)%Z.
Proof.
  unfold len, rstrip. rewrite length_rev.
  pose proof (lstrip_length (rev s)) as H. rewrite length_rev in H. lia.
Qed.

Lemma rstrip_newline (s : str) : rstrip (s ++ [nl]) = rstrip s.
Proof. unfold rstrip. rewrite rev_app_distr. reflexivity. Qed.

Lemma split_double_absent (c : char) (s : str) :
  ~ In c s -> split_double c s = [s].
Proof.
  induction s as [|x r IH]; [reflexivity|].
  intros Hin. cbn [split_double].
  rewrite IH by (intros H; apply Hin; right; exact H).
  assert (Hx : (x =? c) = false)
    by (apply N.eqb_neq; intros ->; apply Hin; left; reflexivity).
  rewrite Hx. destruct r; reflexivity.
Qed.

Lemma split_char_last (c : char) (s : str) :
  ~ In c s -> split_char c (s ++ [c]) = [s; []].
Proof.
  induction s as [|x r IH]; intros Hin; cbn [split_char app].
  - rewrite N.eqb_refl. reflexivity.
  - assert (Hx : (x =? c) = false)
      by (apply N.eqb_neq; intros ->; apply Hin; left; reflexivity).
    rewrite Hx, IH by (intros H; apply Hin; right; exact H). reflexivity.
Qed.

(** Two short paragraphs of 200 characters in all, limit 1500: one part, no
    header. *)
Example chunk_two_short :
  chunk_message (repeat 97 99 ++ [nl; nl] ++ repeat 98 99) 1500
  = [repeat 97 99 ++ [nl; nl] ++ repeat 98 99].
Proof. vm_compute. reflexivity. Qed.

(** ** Message chunker: a single oversized line *)

(** C3 on the code: a blob that is one line longer than the limit comes
    back as three parts, an empty one before the line and an empty one after
    it, and each carries a header; the line itself is neither cut nor split
    (trailing whitespace apart). *)
Theorem chunk_oversized_line (ln : str) (L : Z) :
  (0 <= L)%Z -> (L < len ln)%Z -> ~ In nl ln ->
  chunk_bodies ln L = [[]; rstrip ln; []] /\
  chunk_message ln L =
    [part_header 0 3; part_header 1 3 ++ rstrip ln; part_header 2 3].
Proof.
  intros HL Hlen Hnl.
  assert (E : chunk_bodies ln L = [[]; rstrip ln; []]).
  { unfold chunk_bodies. rewrite split_double_absent by exact Hnl.
    cbn [pack_paras]. rewrite !len_app.
    change (len []) with 0%Z. change (len [nl; nl]) with 2%Z.
    destruct (Z.leb_spec (0 + (len ln + 2)) L) as [H|_]; [lia|].
    destruct (Z.gtb_spec (len ln + 2) L) as [_|H]; [|lia].
    rewrite split_char_last by exact Hnl.
    cbn [pack_lines flush truthy app]. rewrite !len_app.
    change (len []) with 0%Z. change (len [nl]) with 1%Z.
    repeat match goal with
    | |- context [(?a <=? ?b)%Z] => destruct (Z.leb_spec a b); [lia|]
    end.
    rewrite rstrip_newline. reflexivity. }
  split; [exact E|].
  unfold chunk_message. rewrite E. cbn. rewrite app_nil_r. reflexivity.
Qed.

(** The scenario of the specification: one line of 2000 characters, limit 1500. *)
Lemma chunk_oversized_line_witness :
  chunk_message (repeat 97 2000) 1500 =
    [u "(Part 1/3)\n\n"; u "(Part 2/3)\n\n" ++ repeat 97 2000; u "(Part 3/3)\n\n"].
Proof.
  destruct (chunk_oversized_line (repeat 97 2000) 1500) as [_ E].
  - lia.
  - unfold len. rewrite repeat_length. lia.
  - intros H. apply repeat_spec in H. discriminate.
  - rewrite E. vm_compute. reflexivity.
Defined.

(** ** Message chunker: the size of the parts *)

Lemma split_char_sep_last (c : char) (s : str) :
  exists pre, pre <> [] /\ split_char c (s ++ [c]) = pre ++ [[]].
Proof.
  induction s as [|x r (pre & Hne & E)]; cbn [app split_char].
  - rewrite N.eqb_refl. exists [[]]. split; [discriminate|reflexivity].
  - destruct (x =? c).
    + exists ([] :: pre). split; [discriminate|]. rewrite E. reflexivity.
    + rewrite E. destruct pre as [|q pre']; [congruence|].
      exists ((x :: q) :: pre'). split; [discriminate|reflexivity].
Qed.

Lemma split_char_sep_empty (c : char) (s : str) : In [] (split_char c (s ++ [c])).
Proof.
  destruct (split_char_sep_last c s) as (pre & _ & ->).
  apply List.in_app_iff. right. left. reflexivity.
Qed.

Section SizeBound.

Variable L : Z.

Lemma block_ok_flush (lines0 : list str) (block : str) :
  block_ok L lines0 block -> bounded_or_line L lines0 (rstrip block).
Proof.
  intros [H|(ln & Hin & ->)].
  - left. pose proof (rstrip_len block). lia.
  - rewrite rstrip_newline.
    destruct (Z_le_gt_dec (len ln) L) as [Hle|Hgt].
    + left. pose proof (rstrip_len ln). lia.
    + right. exists ln. repeat split; [exact Hin|lia].
Qed.

(** The block put out before anything was added to it is empty: it is
    within a limit that is not negative, and under a negative limit it is
    the empty last line of the paragraph, itself over the limit. *)
Lemma empty_block_flush (lines0 : list str) :
  In [] lines0 -> bounded_or_line L lines0 (rstrip []).
Proof.
  intros Hin. change (rstrip []) with (@nil N).
  destruct (Z_le_gt_dec 0 L) as [Hle|Hgt]; [left; exact Hle|].
  right. exists []. split; [exact Hin|]. split; [|reflexivity].
  change (len []) with 0%Z. lia.
Qed.

Lemma pack_lines_bounded (lines0 lines : list str) (block : str) :
  (forall ln, In ln lines -> In ln lines0) ->
  In [] lines0 ->
  block_ok L lines0 block \/ block = [] ->
  Forall (bounded_or_line L lines0) (pack_lines L block lines).
Proof.
  intros Hsub Hnil. revert block Hsub.
  assert (Hout : forall block, block_ok L lines0 block \/ block = [] ->
                   bounded_or_line L lines0 (rstrip block)).
  { intros block [Hok|E]; [apply block_ok_flush, Hok|].
    rewrite E. apply empty_block_flush, Hnil. }
  induction lines as [|ln more IH]; intros block Hsub Hok.
  - cbn [pack_lines]. unfold flush. destruct (truthy block); constructor;
      [apply Hout, Hok|constructor].
  - cbn [pack_lines].
    assert (Hmore : forall x, In x more -> In x lines0)
      by (intros x Hx; apply Hsub; right; exact Hx).
    destruct (Z.leb_spec (len block + len (ln ++ [nl])) L) as [Hfit|Hover].
    + apply IH; [exact Hmore|]. left. left. rewrite len_app. exact Hfit.
    + constructor; [apply Hout, Hok|].
      apply IH; [exact Hmore|]. left. right. exists ln.
      split; [apply Hsub; left|]; reflexivity.
Qed.

Lemma pack_paras_bounded (paras0 paras : list str) (cur : str) :
  (forall p, In p paras -> In p paras0) ->
  (len cur <= L)%Z \/ cur = [] ->
  Forall (bounded_or_long_line L paras0) (pack_paras L cur paras).
Proof.
  revert cur.
  assert (Hout : forall cur, (len cur <= L)%Z \/ cur = [] ->
                   Forall (bounded_or_long_line L paras0) (flush cur)).
  { intros cur Hcur. unfold flush. destruct (truthy cur) eqn:E; constructor;
      [|constructor].
    destruct Hcur as [Hcur|Hnil]; [|rewrite Hnil in E; discriminate E].
    left. pose proof (rstrip_len cur). lia. } induction paras as [|p more IH]; intros cur Hsub Hcur.
  - cbn [pack_paras]. apply Hout, Hcur.
  - cbn [pack_paras].
    assert (Hmore : forall x, In x more -> In x paras0)
      by (intros x Hx; apply Hsub; right; exact Hx).
    destruct (Z.leb_spec (len cur + len (p ++ [nl; nl])) L) as [Hfit|Hover].
    + apply IH; [exact Hmore|]. left. rewrite len_app. exact Hfit.
    + apply Forall_app. split; [apply Hout, Hcur|].
      destruct (Z.gtb_spec (len (p ++ [nl; nl])) L) as [Hbig|Hsmall].
      * apply Forall_app. split.
        -- pose proof (pack_lines_bounded (split_char nl (p ++ [nl]))
                          (split_char nl (p ++ [nl])) []
                          (fun _ H => H) (split_char_sep_empty nl p)
                          (or_intror eq_refl)) as Hlines.
           eapply Forall_impl; [exact Hlines|].
           intros pt [H|(ln & Hin & Hlong & ->)]; [left; exact H|].
           right. exists p, ln. repeat split; auto.
           apply Hsub. left. reflexivity.
        -- apply IH; [exact Hmore|right; reflexivity].
      * apply IH; [exact Hmore|left; exact Hsmall].
Qed.

End SizeBound.

Lemma add_headers_lookup (parts : list str) (i : nat) (pt : str) :
  parts !! i = Some pt ->
  add_headers parts !! i =
    Some (if (1 <? length parts)%nat
          then part_header i (length parts) ++ pt else pt).
Proof.
  intros H. unfold add_headers. destruct (1 <? length parts)%nat; [|exact H].
  rewrite list_lookup_imap, H. reflexivity.
Qed.

(** The bound read on the parts as returned fails on two paragraphs of 1498
    and 10 characters: no line of the blob is longer than 1500, and the
    first part returned has 1510 characters, its header included. *)
Remark header_exceeds_limit : ~ returned_parts_bounded two_paragraphs 1500.
Proof.
  intros H.
  destruct (H (u "(Part 1/2)\n\n" ++ repeat 97 1498)) as [Hlen|Hline].
  - left. vm_compute. reflexivity.
  - vm_compute in Hlen. apply Hlen. reflexivity.
  - vm_compute in Hline. discriminate.
Qed.

(** ** Message chunker: reading the blob back *)

Lemma split_double_nonempty (c : char) (s : str) : split_double c s <> [].
Proof.
  destruct s as [|x r]; cbn [split_double]; [discriminate|].
  destruct r as [|y r'].
  - destruct (split_double c []); discriminate.
  - destruct ((x =? c) && (y =? c)); [discriminate|].
    destruct (split_double c (y :: r')); discriminate.
Qed.

Lemma join_cons_char (sep : str) (x : char) (p : str) (ps : list str) :
  join sep ((x :: p) :: ps) = x :: join sep (p :: ps).
Proof. destruct ps; reflexivity. Qed.

(** Joining the pieces of a split with the separator gives the string back. *)
Lemma join_split_double (c : char) (s : str) :
  join [c; c] (split_double c s) = s.
Proof.
  enough (H : join [c; c] (split_double c s) = s /\
              forall x, join [c; c] (split_double c (x :: s)) = x :: s)
    by apply H.
  induction s as [|y r [IH1 IH2]].
  - split; [reflexivity|]. intros x. reflexivity.
  - split; [apply IH2|]. intros x.
    change (split_double c (x :: y :: r)) with
      (if (x =? c) && (y =? c) then [] :: split_double c r
       else match split_double c (y :: r) with
            | p :: ps => (x :: p) :: ps
            | [] => [[x]]
            end).
    destruct ((x =? c) && (y =? c)) eqn:E.
    + apply andb_true_iff in E as [Ex Ey].
      apply N.eqb_eq in Ex, Ey. subst x y.
      pose proof (split_double_nonempty c r) as Hne.
      destruct (split_double c r) as [|q qs] eqn:Er; [congruence|].
      cbn [join]. cbn [join] in IH1.
      destruct qs; rewrite IH1; reflexivity.
    + pose proof (split_double_nonempty c (y :: r)) as Hne.
      specialize (IH2 y).
      destruct (split_double c (y :: r)) as [|q qs]; [congruence|].
      rewrite join_cons_char, IH2. reflexivity.
Qed.

Lemma glue_snoc (g : list str) (p : str) : glue (g ++ [p]) = glue g ++ p ++ nn.
Proof.
  unfold glue. rewrite List.map_app, concat_app. cbn. rewrite app_nil_r. reflexivity.
Qed.

Lemma glue_join (g : list str) : g <> [] -> glue g = join nn g ++ nn.
Proof.
  induction g as [|p g IH]; [congruence|]. intros _.
  destruct g as [|q g'].
  - cbn. rewrite app_nil_r. reflexivity.
  - change (glue (p :: q :: g')) with ((p ++ nn) ++ glue (q :: g')).
    rewrite IH by discriminate.
    change (join nn (p :: q :: g')) with (p ++ nn ++ join nn (q :: g')).
    rewrite <- !app_assoc. reflexivity.
Qed.

Lemma join_app (sep : str) (g h : list str) :
  g <> [] -> h <> [] -> join sep (g ++ h) = join sep g ++ sep ++ join sep h.
Proof.
  intros Hg Hh. induction g as [|p g IH]; [congruence|].
  destruct g as [|q g'].
  - destruct h; [congruence|]. reflexivity.
  - change (join sep ((p :: q :: g') ++ h))
      with (p ++ sep ++ join sep ((q :: g') ++ h)).
    rewrite IH by discriminate.
    change (join sep (p :: q :: g')) with (p ++ sep ++ join sep (q :: g')).
    rewrite <- !app_assoc. reflexivity.
Qed.

Lemma ends_nonspace_last (p : str) :
  ends_nonspace p = true -> exists q c, p = q ++ [c] /\ isspace c = false.
Proof.
  unfold ends_nonspace. destruct (rev p) as [|c r] eqn:E; [discriminate|].
  intros H. exists (rev r), c. split.
  - rewrite <- (rev_involutive p), E. reflexivity.
  - destruct (isspace c); [discriminate|reflexivity].
Qed.

Lemma rstrip_keeps (q : str) (c : char) :
  isspace c = false -> rstrip ((q ++ [c]) ++ nn) = q ++ [c].
Proof.
  intros Hc. unfold rstrip. rewrite !rev_app_distr. cbn. rewrite Hc.
  cbn. rewrite rev_involutive. reflexivity.
Qed.

Lemma rstrip_glue (L : Z) (g : list str) :
  g <> [] -> Forall (fits L) g -> rstrip (glue g) = join nn g.
Proof.
  intros Hne Hg. rewrite glue_join by exact Hne.
  destruct (exists_last Hne) as (g' & p & ->).
  apply Forall_app in Hg as [_ Hp]. apply Forall_inv in Hp as [_ Hp].
  apply ends_nonspace_last in Hp as (q & c & -> & Hc).
  assert (E : exists x, join nn (g' ++ [q ++ [c]]) = x ++ [c]).
  { destruct g' as [|a g''].
    - exists q. reflexivity.
    - rewrite join_app by discriminate. exists (join nn (a :: g'') ++ nn ++ q).
      cbn [join]. rewrite <- !app_assoc. reflexivity. }
  destruct E as [x ->]. apply rstrip_keeps, Hc.
Qed.

Lemma glue_truthy (g : list str) : g <> [] -> truthy (glue g) = true.
Proof.
  destruct g as [|p g]; [congruence|]. intros _.
  unfold glue. cbn. destruct p; reflexivity.
Qed.

Lemma pack_paras_nonempty (L : Z) (paras : list str) (cur : str) :
  truthy cur = true -> pack_paras L cur paras <> [].
Proof.
  revert cur. induction paras as [|p more IH]; intros cur Hcur; cbn [pack_paras].
  - unfold flush. rewrite Hcur. discriminate.
  - destruct (_ <=? _)%Z.
    + apply IH. destruct cur; [discriminate|reflexivity].
    + unfold flush. rewrite Hcur. discriminate.
Qed.

(** When every paragraph fits and ends in a character that is kept, the
    parts are groups of paragraphs and joining them gives the paragraphs
    joined. *)
Lemma pack_paras_join (L : Z) (paras g : list str) :
  Forall (fits L) g -> Forall (fits L) paras -> g ++ paras <> [] ->
  join nn (pack_paras L (glue g) paras) = join nn (g ++ paras).
Proof.
  revert g. induction paras as [|p more IH]; intros g Hg Hparas Hne.
  - rewrite app_nil_r in *. cbn [pack_paras]. unfold flush.
    rewrite glue_truthy by exact Hne. cbn [join].
    apply (rstrip_glue L); assumption.
  - apply Forall_cons in Hparas as [Hp Hmore].
    cbn [pack_paras]. fold nn.
    destruct (Z.leb_spec (len (glue g) + len (p ++ nn)) L) as [Hfit|Hover].
    + rewrite <- glue_snoc.
      rewrite IH; [rewrite <- app_assoc; reflexivity| |exact Hmore|].
      * apply Forall_app. split; [exact Hg|]. constructor; [exact Hp|constructor].
      * destruct g; discriminate.
    + destruct Hp as [Hlen Hend].
      assert (Hadd : len (p ++ nn) = (len p + 2)%Z)
        by (rewrite len_app; reflexivity).
      destruct (Z.gtb_spec (len (p ++ nn)) L) as [Hbig|_]; [lia|].
      assert (Hg_ne : g <> []).
      { intros ->. change (len (glue [])) with 0%Z in Hover. lia. }
      unfold flush. rewrite glue_truthy by exact Hg_ne.
      rewrite (rstrip_glue L) by assumption.
      assert (Hp1 : Forall (fits L) [p])
        by (constructor; [split; assumption|constructor]).
      pose proof (IH [p] Hp1 Hmore ltac:(discriminate)) as IHp.
      change (glue [p]) with ((p ++ nn) ++ []) in IHp. rewrite app_nil_r in IHp.
      assert (Hrest : pack_paras L (p ++ nn) more <> []).
      { apply pack_paras_nonempty. destruct p; reflexivity. }
      rewrite (join_app nn [join nn g]) by (discriminate || exact Hrest).
      rewrite IHp. cbn [join app].
      rewrite (join_app nn g (p :: more)) by (exact Hg_ne || discriminate).
      reflexivity.
Qed.

Lemma digits_no_newline (d : Decimal.uint) : Forall (fun c => c <> nl) (digits d).
Proof. induction d; cbn [digits]; constructor; (discriminate || assumption). Qed.

Lemma after_blank_skip (d r : str) :
  Forall (fun c => c <> nl) d -> after_blank (d ++ nl :: nl :: r) = r.
Proof.
  induction 1 as [|x d Hx _ IH]; [reflexivity|].
  cbn [app after_blank].
  destruct (d ++ nl :: nl :: r) as [|y r'] eqn:E; [destruct d; discriminate|].
  apply N.eqb_neq in Hx. rewrite Hx. exact IH.
Qed.

Lemma after_blank_header (i n : nat) (pt : str) :
  after_blank (part_header i n ++ pt) = pt.
Proof.
  unfold part_header, str_of_nat. eval_lits.
  change [41; 10; 10] with ([41] ++ [nl; nl]).
  rewrite <- !app_assoc.
  change ([nl; nl] ++ pt) with (nl :: nl :: pt).
  rewrite !app_assoc. apply after_blank_skip.
  repeat (apply Forall_app; split); try apply digits_no_newline;
    repeat constructor; discriminate.
Qed.

Lemma map_after_blank_imap (parts : list str) (h : nat -> str) :
  (forall i pt, after_blank (h i ++ pt) = pt) ->
  List.map after_blank (imap (fun i pt => h i ++ pt) parts) = parts.
Proof.
  revert h. induction parts as [|pt parts IH]; intros h Hh; [reflexivity|].
  cbn [imap List.map]. f_equal; [apply Hh|].
  exact (IH (fun i => h (S i)) (fun i => Hh (S i))).
Qed.

Lemma part_bodies_add_headers (parts : list str) :
  part_bodies (add_headers parts) = parts.
Proof.
  unfold part_bodies, add_headers.
  destruct (1 <? length parts)%nat eqn:E; [|rewrite E; reflexivity].
  rewrite length_imap, E.
  apply (map_after_blank_imap parts (fun i => part_header i (length parts))).
  intros i pt. apply after_blank_header.
Qed.

(** C2, as the code has it: when every paragraph of the blob, with its
    blank-line separator, fits within the limit and ends in a character that
    is not whitespace, taking the headers off the parts and joining what is
    left with a blank line between two parts gives the blob back. *)
Theorem chunk_round_trip (body : str) (L : Z) :
  Forall (fits L) (split_double nl body) ->
  rebuild (chunk_message body L) = body.
Proof.
  intros H. unfold rebuild, chunk_message. rewrite part_bodies_add_headers.
  unfold chunk_bodies.
  pose proof (pack_paras_join L (split_double nl body) [] (List.Forall_nil _) H
                (split_double_nonempty nl body)) as E.
  change (glue []) with (@nil N) in E. fold nn. rewrite E.
  apply join_split_double.
Qed.

(** Five paragraphs of 400 characters with the limit 1500: two parts. *)
Lemma chunk_round_trip_witness :
  length (chunk_message five_paragraphs 1500) = 2%nat /\
  rebuild (chunk_message five_paragraphs 1500) = five_paragraphs.
Proof.
  split; [vm_compute; reflexivity|].
  apply (chunk_round_trip five_paragraphs 1500).
  vm_compute. repeat constructor; discriminate.
Defined.

(** C2 as stated fails: whitespace at the end of a part is dropped, and the
    pieces of a paragraph that was split by lines were one line apart, not a
    blank line apart. *)
Lemma round_trip_loses_text :
  rebuild (chunk_message (u "Rest day ") 1500) <> u "Rest day " /\
  rebuild (chunk_message (u "aaaa\nbbbb") 6) <> u "aaaa\nbbbb".
Proof. split; vm_compute; discriminate. Qed.

(** ** Alias builder *)

Lemma classify_day_category (d : str) : In (classify_day d) categories.
Proof.
  unfold classify_day, categories.
  repeat match goal with |- context [if ?b then _ else _] => destruct b end;
    cbn [In]; auto 10.
Qed.

Lemma str_of_nat_inj (n m : nat) : str_of_nat n = str_of_nat m -> n = m.
Proof.
  unfold str_of_nat. intros H. apply DecimalNat.Unsigned.to_uint_inj.
  revert H. generalize (Nat.to_uint n) (Nat.to_uint m). intros a.
  induction a as [|? IH|? IH|? IH|? IH|? IH|? IH|? IH|? IH|? IH|? IH];
    intros [| | | | | | | | | |]; cbn [digits]; intros H;
    try discriminate; try reflexivity;
    injection H as H; f_equal; apply IH, H.
Qed.

Lemma str_of_nat_nonempty (n : nat) : str_of_nat n <> [].
Proof.
  unfold str_of_nat. intros H.
  assert (E : Nat.to_uint n = Decimal.Nil) by (destruct (Nat.to_uint n); cbn in H; congruence).
  pose proof (DecimalNat.Unsigned.of_to n) as Hn. rewrite E in Hn. cbn in Hn. subst n.
  discriminate.
Qed.

Ltac category_cases H :=
  unfold categories in H; cbn [In] in H;
  repeat (destruct H as [H|H]; [symmetry in H|]); [..|contradiction].

(** No category name continues into another one. *)
Lemma alias_inj (c c' x y : str) :
  In c categories -> In c' categories -> c ++ x = c' ++ y -> c = c' /\ x = y.
Proof.
  intros Hc Hc' E.
  category_cases Hc; category_cases Hc'; subst c c';
    first [ split; [reflexivity|apply (app_inv_head _ _ _ E)]
          | exfalso; revert E; eval_lits; cbn [app]; congruence ].
Qed.

Lemma bare_not_numbered (c c' x : str) :
  In c categories -> In c' categories -> x <> [] -> c ++ x <> c'.
Proof.
  intros Hc Hc' Hx E.
  rewrite <- (app_nil_r c') in E.
  apply alias_inj in E as [_ E]; auto.
Qed.

Lemma alias_loop_snoc (ds : list str) (d : str) :
  alias_loop (ds ++ [d]) = alias_step (alias_loop ds) d.
Proof. unfold alias_loop. rewrite fold_left_app. reflexivity. Qed.

Lemma cat_days_snoc (c : str) (ds : list str) (d : str) :
  cat_days c (ds ++ [d]) =
    cat_days c ds ++ (if bool_decide (classify_day d = c) then [d] else []).
Proof. unfold cat_days. rewrite List.filter_app. reflexivity. Qed.

Lemma cat_days_snoc_same (ds : list str) (d : str) :
  cat_days (classify_day d) (ds ++ [d]) = cat_days (classify_day d) ds ++ [d].
Proof. rewrite cat_days_snoc, bool_decide_eq_true_2 by reflexivity. reflexivity. Qed.

Lemma cat_days_snoc_other (c : str) (ds : list str) (d : str) :
  classify_day d <> c -> cat_days c (ds ++ [d]) = cat_days c ds.
Proof.
  intros H. rewrite cat_days_snoc, bool_decide_eq_false_2 by exact H.
  apply app_nil_r.
Qed.

Section AliasStep.

Variables (ds : list str) (d : str).

Let typ := classify_day d.
Let k0 := length (cat_days typ ds).

(** The alias of the day being added is not among those of the days before. *)
Lemma alias_rel_fresh (d' : str) : ~ alias_rel ds (typ ++ str_of_nat (S k0)) d'.
Proof.
  intros [(c & k & Hc & E & Hk)|[Hin _]].
  - apply alias_inj in E as [<- E]; [|apply classify_day_category|exact Hc].
    apply str_of_nat_inj in E. injection E as <-.
    apply lookup_lt_Some in Hk. subst k0. lia.
  - apply (bare_not_numbered typ (typ ++ str_of_nat (S k0)) (str_of_nat (S k0)));
      [apply classify_day_category|exact Hin|apply str_of_nat_nonempty|reflexivity].
Qed.

Lemma alias_rel_no_bare (d' : str) : k0 = 0%nat -> ~ alias_rel ds typ d'.
Proof.
  intros Hk [(c & k & Hc & E & _)|[_ Hhd]].
  - symmetry in E. revert E. apply bare_not_numbered;
      [exact Hc|apply classify_day_category|apply str_of_nat_nonempty].
  - subst k0. destruct (cat_days typ ds); [discriminate|cbn in Hk; lia].
Qed.

Lemma alias_rel_snoc (key d' : str) :
  alias_rel (ds ++ [d]) key d' <->
  (key = typ ++ str_of_nat (S k0) /\ d' = d) \/
  (key = typ /\ k0 = 0%nat /\ d' = d) \/
  alias_rel ds key d'.
Proof.
  split.
  - intros [(c & k & Hc & E & Hk)|[Hin Hhd]].
    + destruct (decide (typ = c)) as [<-|Hne].
      * subst typ. rewrite cat_days_snoc_same in Hk.
        apply lookup_app_Some in Hk as [Hk|[Hge Hk]].
        -- right. right. left. exists (classify_day d), k. auto.
        -- apply list_lookup_singleton_Some in Hk as [Hk <-].
           left. split; [|reflexivity]. subst key k0.
           do 3 f_equal. lia.
      * rewrite cat_days_snoc_other in Hk by exact Hne.
        right. right. left. exists c, k. auto.
    + destruct (decide (typ = key)) as [<-|Hne].
      * subst typ. rewrite cat_days_snoc_same in Hhd.
        destruct (cat_days (classify_day d) ds) as [|x l] eqn:Ec.
        -- right. left. cbn in Hhd. injection Hhd as <-.
           subst k0. rewrite ?Ec. auto.
        -- right. right. right. rewrite ?Ec. auto.
      * rewrite cat_days_snoc_other in Hhd by exact Hne.
        right. right. right. auto.
  - intros [[-> ->]|[(-> & Hk & ->)|H]].
    + left. exists typ, k0. split; [apply classify_day_category|].
      split; [reflexivity|]. subst typ. rewrite cat_days_snoc_same.
      rewrite lookup_app_r by (subst k0; lia).
      subst k0. rewrite Nat.sub_diag. reflexivity.
    + right. split; [apply classify_day_category|].
      subst typ. rewrite cat_days_snoc_same.
      subst k0. destruct (cat_days (classify_day d) ds); [reflexivity|discriminate].
    + destruct H as [(c & k & Hc & E & Hk)|[Hin Hhd]].
      * left. exists c, k. split; [exact Hc|]. split; [exact E|].
        rewrite cat_days_snoc. apply lookup_app_l_Some. exact Hk.
      * right. split; [exact Hin|]. rewrite cat_days_snoc.
        destruct (cat_days key ds); [discriminate|exact Hhd].
Qed.

End AliasStep.

Lemma filter_gain {A : Type} (P Q : A -> bool) (t : A) (l : list A) :
  List.NoDup l -> In t l -> P t = false -> Q t = true ->
  (forall c, c <> t -> Q c = P c) ->
  length (List.filter Q l) = S (length (List.filter P l)).
Proof.
  intros Hnd Hin HP HQ Hsame.
  induction Hnd as [|x l Hx Hnd IH]; [contradiction|].
  cbn [List.filter]. destruct Hin as [->|Hin].
  - rewrite HP, HQ. cbn [length]. f_equal. f_equal.
    apply List.filter_ext_in. intros c Hc. apply Hsame. intros ->. contradiction.
  - rewrite (Hsame x) by (intros ->; contradiction).
    destruct (P x); cbn [length]; rewrite IH by exact Hin; reflexivity.
Qed.

Lemma categories_nodup : List.NoDup categories.
Proof.
  unfold categories. eval_lits.
  repeat (constructor; [cbn [In]; intuition discriminate|]). constructor.
Qed.

Lemma occurring_snoc (ds : list str) (d : str) :
  length (occurring (ds ++ [d])) =
    (length (occurring ds)
     + (if Nat.eqb (length (cat_days (classify_day d) ds)) 0 then 1 else 0))%nat.
Proof.
  unfold occurring.
  destruct (cat_days (classify_day d) ds) as [|x l] eqn:E; cbn [length Nat.eqb].
  - rewrite Nat.add_1_r.
    apply (filter_gain _ _ (classify_day d));
      [apply categories_nodup|apply classify_day_category|..].
    + rewrite E. reflexivity.
    + rewrite cat_days_snoc_same, E. reflexivity.
    + intros c Hc. rewrite cat_days_snoc_other by congruence. reflexivity.
  - rewrite Nat.add_0_r. f_equal. apply List.filter_ext. intros c.
    destruct (decide (classify_day d = c)) as [<-|Hne].
    + rewrite cat_days_snoc_same, E. reflexivity.
    + rewrite cat_days_snoc_other by exact Hne. reflexivity.
Qed.

Lemma alias_inv_init : alias_inv [] alias_init.
Proof.
  split.
  - intros c Hc. category_cases Hc; subst c; vm_compute; reflexivity.
  - intros key d. cbn [alias_init alias_to_day]. rewrite lookup_empty. split; [discriminate|].
    intros [(c & k & _ & _ & H)|[_ H]]; cbn in H.
    + rewrite lookup_nil in H. discriminate.
    + discriminate.
  - reflexivity.
Qed.

Lemma alias_inv_step (ds : list str) (d : str) (st : alias_state) :
  alias_inv ds st -> alias_inv (ds ++ [d]) (alias_step st d).
Proof.
  intros [Hcounts Hlookup Hsize].
  pose proof (classify_day_category d) as Htyp.
  pose proof (Hcounts _ Htyp) as Hc0.
  pose proof (alias_rel_fresh ds d) as Hfresh.
  pose proof (alias_rel_no_bare ds d) as Hbare.
  pose proof (alias_rel_snoc ds d) as Hsnoc.
  set (typ := classify_day d) in *.
  set (k0 := length (cat_days typ ds)) in *.
  assert (Hne : typ ++ str_of_nat (S k0) <> typ).
  { apply bare_not_numbered; auto. apply str_of_nat_nonempty. }
  assert (Hnone : alias_to_day st !! (typ ++ str_of_nat (S k0)) = None).
  { destruct (alias_to_day st !! _) as [d'|] eqn:E; [|reflexivity].
    apply Hlookup in E. destruct (Hfresh d' E). }
  unfold alias_step. fold typ. rewrite Hc0. cbn [from_option id].
  rewrite lookup_total_insert_eq.
  replace (k0 + 1)%nat with (S k0) by lia.
  split; cbn [counts alias_to_day].
  - intros c Hc. destruct (decide (typ = c)) as [<-|Hn].
    + rewrite lookup_insert_eq. subst typ. rewrite cat_days_snoc_same, length_app.
      cbn [length]. f_equal. subst k0. lia.
    + rewrite lookup_insert_ne by exact Hn.
      rewrite cat_days_snoc_other by exact Hn. apply Hcounts, Hc.
  - intros key d'. rewrite Hsnoc.
    destruct k0 as [|k0'] eqn:Ek; cbn [Nat.eqb].
    + destruct (decide (typ = key)) as [<-|Hk].
      * rewrite lookup_insert_eq. split.
        -- intros [= <-]. auto.
        -- intros [[E _]|[(_ & _ & ->)|H]]; [congruence|reflexivity|].
           destruct (Hbare d' eq_refl H).
      * rewrite lookup_insert_ne by exact Hk.
        destruct (decide (typ ++ str_of_nat 1 = key)) as [<-|Hk'].
        -- rewrite lookup_insert_eq. split.
           ++ intros [= <-]. auto.
           ++ intros [[_ ->]|[(E & _)|H]]; [reflexivity|congruence|].
              destruct (Hfresh d' H).
        -- rewrite lookup_insert_ne by exact Hk'. rewrite Hlookup.
           split; [auto|]. intros [[E _]|[(E & _)|H]]; [congruence..|exact H].
    + destruct (decide (typ ++ str_of_nat (S (S k0')) = key)) as [<-|Hk'].
      * rewrite lookup_insert_eq. split.
        -- intros [= <-]. auto.
        -- intros [[_ ->]|[(_ & E & _)|H]]; [reflexivity|discriminate|].
           destruct (Hfresh d' H).
      * rewrite lookup_insert_ne by exact Hk'. rewrite Hlookup.
        split; [auto|]. intros [[E _]|[(_ & E & _)|H]];
          [congruence|discriminate|exact H].
  - rewrite length_app, occurring_snoc. fold typ. fold k0. cbn [length].
    destruct k0 as [|k0'] eqn:Ek; cbn [Nat.eqb].
    + rewrite map_size_insert_None.
      * rewrite map_size_insert_None by exact Hnone. rewrite Hsize. lia.
      * rewrite lookup_insert_ne by exact Hne.
        destruct (alias_to_day st !! typ) as [d'|] eqn:E; [|reflexivity].
        apply Hlookup in E. destruct (Hbare d' eq_refl E).
    + rewrite map_size_insert_None by exact Hnone. rewrite Hsize. lia.
Qed.

Lemma alias_loop_inv (ds : list str) : alias_inv ds (alias_loop ds).
Proof.
  induction ds as [|d ds IH] using rev_ind; [apply alias_inv_init|].
  rewrite alias_loop_snoc. apply alias_inv_step, IH.
Qed.

Lemma unique_from_spec (ds : list str) (seen : gset (list N)) :
  List.NoDup (unique_from seen ds) /\
  forall x, In x (unique_from seen ds) -> (x ∉ seen) /\ In x ds.
Proof.
  revert seen. induction ds as [|d r IH]; intros seen; cbn [unique_from].
  - split; [constructor|]. intros x [].
  - destruct (decide (d ∈ seen)) as [Hin|Hout].
    + destruct (IH seen) as [Hnd Hx]. split; [exact Hnd|].
      intros x H. destruct (Hx x H). split; [assumption|right; assumption].
    + destruct (IH ({[d]} ∪ seen)) as [Hnd Hx]. split.
      * constructor; [|exact Hnd]. intros H. apply Hx in H as [H _].
        apply H, elem_of_union_l, elem_of_singleton. reflexivity.
      * intros x [<-|H]; [split; [exact Hout|left; reflexivity]|].
        apply Hx in H as [H1 H2]. split; [|right; exact H2].
        intros Hs. apply H1, elem_of_union_r, Hs.
Qed.

Lemma alias_lookup_bare (days : list str) (c : str) :
  In c categories ->
  alias_to_day (alias_loop days) !! c = head (cat_days c days).
Proof.
  intros Hc. pose proof (inv_lookup _ _ (alias_loop_inv days)) as H.
  destruct (head (cat_days c days)) as [d|] eqn:E.
  - apply H. right. auto.
  - destruct (alias_to_day (alias_loop days) !! c) as [d|] eqn:E'; [|reflexivity].
    apply H in E' as [(c' & k & Hc' & Ek & _)|[_ E']]; [|congruence].
    symmetry in Ek. exfalso. revert Ek.
    apply bare_not_numbered; auto. apply str_of_nat_nonempty.
Qed.

Lemma alias_lookup_numbered (days : list str) (c : str) (k : nat) :
  In c categories ->
  alias_to_day (alias_loop days) !! (c ++ str_of_nat (S k)) = cat_days c days !! k.
Proof.
  intros Hc.
  pose proof (inv_lookup _ _ (alias_loop_inv days)) as H.
  destruct (cat_days c days !! k) as [d|] eqn:E.
  - apply H. left. exists c, k. auto.
  - destruct (alias_to_day (alias_loop days) !! _) as [d|] eqn:E'; [|reflexivity].
    apply H in E' as [(c' & k' & Hc' & Ek & E')|[Hin _]].
    + apply alias_inj in Ek as [<- Ek]; auto.
      apply str_of_nat_inj in Ek. injection Ek as <-. congruence.
    + exfalso. revert Hin. intros Hin.
      apply (bare_not_numbered c (c ++ str_of_nat (S k)) (str_of_nat (S k)));
        auto. apply str_of_nat_nonempty.
Qed.

(** C5: the days of the plan are taken once each, in first-seen order; the
    alias map holds exactly the numbered aliases, one per day (the category
    followed by the 1-based position of the day among the days of its
    category), and the bare name of each category that occurs, which stands
    for the first day of that category; so it has as many keys as there are
    days plus the number of categories that occur, at most five. *)
Theorem build_alias_map_aliases (df : DataFrame) :
  List.NoDup (ordered_unique_days df) /\
  (forall key d,
     fst (build_alias_map df) !! key = Some d <->
     alias_rel (ordered_unique_days df) key d) /\
  (forall c, In c categories ->
     fst (build_alias_map df) !! c = head (cat_days c (ordered_unique_days df))) /\
  (forall c k, In c categories ->
     fst (build_alias_map df) !! (c ++ str_of_nat (S k))
     = cat_days c (ordered_unique_days df) !! k) /\
  size (fst (build_alias_map df))
  = (length (ordered_unique_days df) + length (occurring (ordered_unique_days df)))%nat /\
  (length (occurring (ordered_unique_days df)) <= 5)%nat.
Proof.
  unfold build_alias_map. cbn [fst].
  pose proof (alias_loop_inv (ordered_unique_days df)) as [_ Hl Hs].
  split; [apply unique_from_spec|].
  split; [exact Hl|].
  split; [intros c; apply alias_lookup_bare|].
  split; [intros c k; apply alias_lookup_numbered|].
  split; [exact Hs|].
  unfold occurring.
  pose proof (List.filter_length_le
                (fun c => negb (no_items (cat_days c (ordered_unique_days df))))
                categories) as H.
  exact H.
Qed.

(** * Further properties of the code *)

(** ** Unique days *)

Lemma dropna_In (l : list cell) (d : str) : In d (dropna l) <-> In (Text d) l.
Proof.
  induction l as [|c l IH]; [reflexivity|].
  destruct c as [|s]; cbn [dropna In]; rewrite IH.
  - split; [auto|]. intros [H|H]; [discriminate|exact H].
  - split; (intros [H|H]; [left; congruence|right; exact H]).
Qed.

Lemma first_seen_In (l : list str) (d : str) : In d (first_seen l) <-> In d l.
Proof.
  induction l as [|x l IH]; [reflexivity|]. cbn [first_seen In].
  rewrite List.filter_In, IH. split.
  - intros [H|[H _]]; auto.
  - intros [H|H]; [auto|].
    destruct (decide (d = x)) as [->|Hne]; [auto|].
    right. split; [exact H|]. rewrite bool_decide_eq_false_2 by exact Hne. reflexivity.
Qed.

Lemma filter_filter {A : Type} (f g : A -> bool) (l : list A) :
  List.filter f (List.filter g l) = List.filter (fun x => g x && f x) l.
Proof.
  induction l as [|x l IH]; [reflexivity|]. cbn [List.filter].
  destruct (g x); cbn [List.filter andb]; [destruct (f x)|]; rewrite IH; reflexivity.
Qed.

Lemma unique_from_first_seen (l : list str) (seen : gset (list N)) :
  unique_from seen l
  = List.filter (fun x => negb (bool_decide (x ∈ seen))) (first_seen l).
Proof.
  revert seen. induction l as [|d r IH]; intros seen; [reflexivity|].
  cbn [unique_from first_seen List.filter].
  destruct (decide (d ∈ seen)) as [Hin|Hout].
  - rewrite bool_decide_eq_true_2 by exact Hin. cbn [negb].
    rewrite IH, filter_filter. apply List.filter_ext. intros x.
    destruct (decide (x = d)) as [->|Hne].
    + rewrite (bool_decide_eq_true_2 (d ∈ seen)) by exact Hin.
      cbn [negb]. rewrite andb_false_r. reflexivity.
    + rewrite (bool_decide_eq_false_2 (x = d)) by exact Hne. reflexivity.
  - rewrite bool_decide_eq_false_2 by exact Hout. cbn [negb]. f_equal.
    rewrite IH, filter_filter. apply List.filter_ext. intros x.
    destruct (decide (x = d)) as [->|Hne].
    + rewrite (bool_decide_eq_true_2 (d = d)) by reflexivity.
      rewrite bool_decide_eq_true_2
        by (apply elem_of_union_l, elem_of_singleton; reflexivity).
      reflexivity.
    + rewrite (bool_decide_eq_false_2 (x = d)) by exact Hne. cbn [negb andb].
      f_equal. apply bool_decide_ext.
      rewrite elem_of_union, elem_of_singleton. tauto.
Qed.

(** X1: the unique days are the non-missing values of the Day column, each
    once, in the order of their first occurrence. *)
Theorem ordered_unique_days_first_seen (df : DataFrame) :
  ordered_unique_days df = first_seen (dropna (List.map Day df)) /\
  List.NoDup (ordered_unique_days df) /\
  (forall d, In d (ordered_unique_days df) <-> exists r, In r df /\ Day r = Text d).
Proof.
  assert (E : ordered_unique_days df = first_seen (dropna (List.map Day df))).
  { unfold ordered_unique_days. rewrite unique_from_first_seen.
    rewrite <- (List.filter_ext (fun _ => true)).
    - induction (first_seen _) as [|x l IH]; [reflexivity|].
      cbn [List.filter]. rewrite IH. reflexivity.
    - intros x. rewrite bool_decide_eq_false_2 by apply not_elem_of_empty.
      reflexivity. }
  split; [exact E|]. split; [apply unique_from_spec|].
  intros d. rewrite E, first_seen_In, dropna_In, List.in_map_iff.
  split; intros (r & H1 & H2); exists r; auto.
Qed.

(** ** Links *)

Lemma hex_digit_unreserved (d : N) : d < 16 -> unreserved (hex_digit d) = true.
Proof.
  intros H.
  assert (Hin : In d (List.map N.of_nat (seq 0 16))).
  { apply List.in_map_iff. exists (N.to_nat d). split; [lia|].
    apply in_seq. lia. }
  apply (proj1 (List.Forall_forall (fun x => unreserved (hex_digit x) = true)
                  (List.map N.of_nat (seq 0 16)))); [|exact Hin].
  vm_compute. repeat constructor.
Qed.

Lemma utf8_encode_bytes (c : char) :
  scalar_value c -> List.Forall (fun b => b < 256) (utf8_encode c).
Proof.
  unfold scalar_value, utf8_encode. intros Hs.
  assert (Hc : c < 1114112) by lia. clear Hs.
  assert (M : forall x, 128 + x mod 64 < 256)
    by (intros x; pose proof (N.mod_upper_bound x 64); lia).
  destruct (N.ltb_spec c 128); [repeat constructor; lia|].
  destruct (N.ltb_spec c 2048).
  { repeat constructor; [|apply M].
    assert (c / 64 < 32) by (apply N.Div0.div_lt_upper_bound; lia). lia. }
  destruct (N.ltb_spec c 65536).
  { repeat constructor; [|apply M..].
    assert (c / 4096 < 16) by (apply N.Div0.div_lt_upper_bound; lia). lia. }
  repeat constructor; [|apply M..].
  assert (c / 262144 < 8) by (apply N.Div0.div_lt_upper_bound; lia). lia.
Qed.

Lemma quote_byte_url (b : N) :
  b < 256 -> List.Forall (fun c => url_char c = true) (quote_byte b).
Proof.
  intros Hb. unfold quote_byte, url_char.
  destruct (unreserved b) eqn:E; [repeat constructor; rewrite E; reflexivity|].
  destruct (b =? 32); [repeat constructor|].
  assert (b / 16 < 16) by (apply N.Div0.div_lt_upper_bound; lia).
  assert (b mod 16 < 16) by (apply N.mod_upper_bound; lia).
  repeat constructor; rewrite hex_digit_unreserved by assumption; reflexivity.
Qed.

Lemma quote_plus_url (s : list N) :
  List.Forall scalar_value s -> List.Forall (fun c => url_char c = true) (quote_plus s).
Proof.
  intros Hs. unfold quote_plus.
  apply List.Forall_concat, List.Forall_map, List.Forall_concat, List.Forall_map.
  eapply List.Forall_impl; [|exact Hs]. intros c Hc.
  eapply List.Forall_impl; [|apply utf8_encode_bytes, Hc].
  intros b Hb. apply quote_byte_url, Hb.
Qed.

Lemma url_char_range (c : char) : url_char c = true -> 33 <= c /\ c <= 132.
Proof.
  unfold url_char, unreserved.
  rewrite !orb_true_iff, !andb_true_iff, !N.leb_le, !N.eqb_eq. lia.
Qed.

Lemma plain_not_space (c : char) : 33 <= c -> c <= 132 -> isspace c = false.
Proof.
  intros H1 H2. unfold isspace.
  repeat (apply orb_false_iff; split);
    rewrite ?andb_false_iff, ?N.leb_gt, ?N.eqb_neq; lia.
Qed.

Lemma url_char_not_space (c : char) : url_char c = true -> isspace c = false.
Proof. intros H. apply url_char_range in H as [H1 H2]. apply plain_not_space; lia. Qed.

Lemma link_prefix_url :
  List.Forall (fun c => isspace c = false) (u "https://www.google.com/search?q=").
Proof. vm_compute. repeat constructor. Qed.

(** X2: for text made of Unicode scalar values (no lone surrogate, on which
    the encoding to UTF-8 raises), a quoted query holds only unreserved
    characters, [+] and [%], so neither link has a blank or a line break in
    it: a link stays on its line and in one piece. *)
Theorem links_have_no_whitespace (ex term suffix : list N) :
  List.Forall scalar_value ex ->
  List.Forall scalar_value term ->
  List.Forall scalar_value suffix ->
  List.Forall (fun c => url_char c = true) (quote_plus ex) /\
  List.Forall (fun c => isspace c = false) (google_exercise_link ex) /\
  List.Forall (fun c => isspace c = false) (google_ref_link term suffix).
Proof.
  intros Hex Hterm Hsuffix.
  assert (Q : forall s, List.Forall scalar_value s ->
              List.Forall (fun c => isspace c = false)
                (u "https://www.google.com/search?q=" ++ quote_plus s)).
  { intros s Hs.
    apply (proj2 (List.Forall_app _ _ _)). split; [exact link_prefix_url|].
    eapply List.Forall_impl; [|exact (quote_plus_url s Hs)].
    exact url_char_not_space. }
  assert (Hsite : List.Forall scalar_value (u "site:musclewiki.com "))
    by (unfold scalar_value; eval_lits; repeat constructor).
  assert (Hblank : List.Forall scalar_value (u " "))
    by (unfold scalar_value; eval_lits; repeat constructor).
  split; [exact (quote_plus_url ex Hex)|]. split.
  - apply (Q (u "site:musclewiki.com " ++ ex)).
    apply (proj2 (List.Forall_app _ _ _)). split; assumption.
  - apply (Q (term ++ u " " ++ suffix)).
    apply (proj2 (List.Forall_app _ _ _)). split; [assumption|].
    apply (proj2 (List.Forall_app _ _ _)). split; assumption.
Qed.

Lemma links_have_no_whitespace_witness :
  List.Forall (fun c => isspace c = false)
    (google_ref_link (u "Child’s pose") (u "stretch")).
Proof.
  apply (links_have_no_whitespace (u "Cat–Cow") (u "Child’s pose") (u "stretch"));
    unfold scalar_value; eval_lits; repeat constructor.
Defined.

(** ** Message chunker: what always holds of the parts *)

Lemma split_char_nonempty (c : char) (s : list N) : split_char c s <> [].
Proof.
  destruct s as [|x r]; cbn [split_char]; [discriminate|].
  destruct (x =? c); [discriminate|]. destruct (split_char c r); discriminate.
Qed.

Lemma truthy_app_r (s t : list N) : truthy t = true -> truthy (s ++ t) = true.
Proof. destruct s; [auto|reflexivity]. Qed.

Lemma pack_lines_some (L : Z) (lines : list (list N)) (block : list N) :
  lines <> [] \/ truthy block = true -> pack_lines L block lines <> [].
Proof.
  revert block. induction lines as [|ln more IH]; intros block H; cbn [pack_lines].
  - destruct H as [H|H]; [congruence|]. unfold flush. rewrite H. discriminate.
  - destruct (_ <=? _)%Z; [|discriminate].
    apply IH. right. apply truthy_app_r. destruct ln; reflexivity.
Qed.

Lemma pack_paras_some (L : Z) (paras : list (list N)) (cur : list N) :
  paras <> [] \/ truthy cur = true -> pack_paras L cur paras <> [].
Proof.
  revert cur. induction paras as [|p more IH]; intros cur H; cbn [pack_paras].
  - destruct H as [H|H]; [congruence|]. unfold flush. rewrite H. discriminate.
  - destruct (_ <=? _)%Z.
    + apply IH. right. apply truthy_app_r. destruct p; reflexivity.
    + intros E. apply app_eq_nil in E as [_ E]. revert E.
      destruct (_ >? _)%Z.
      * intros E. apply app_eq_nil in E as [E _]. revert E.
        apply pack_lines_some. left. apply split_char_nonempty.
      * apply IH. right. destruct p; reflexivity.
Qed.

Lemma add_headers_length (parts : list (list N)) :
  length (add_headers parts) = length parts.
Proof.
  unfold add_headers. destruct (1 <? length parts)%nat; [|reflexivity].
  apply length_imap.
Qed.

Lemma lstrip_idem (s : list N) : lstrip (lstrip s) = lstrip s.
Proof.
  induction s as [|c s IH]; [reflexivity|]. cbn [lstrip].
  destruct (isspace c) eqn:E; [exact IH|]. cbn [lstrip]. rewrite E. reflexivity.
Qed.

Lemma rstrip_idem (s : list N) : rstrip (rstrip s) = rstrip s.
Proof. unfold rstrip. rewrite rev_involutive, lstrip_idem. reflexivity. Qed.

Lemma pack_lines_stripped (L : Z) (lines : list (list N)) (block : list N) :
  List.Forall (fun pt => rstrip pt = pt) (pack_lines L block lines).
Proof.
  revert block. induction lines as [|ln more IH]; intros block; cbn [pack_lines].
  - unfold flush. destruct (truthy block); repeat constructor. apply rstrip_idem.
  - destruct (_ <=? _)%Z; [apply IH|]. constructor; [apply rstrip_idem|apply IH].
Qed.

Lemma pack_paras_stripped (L : Z) (paras : list (list N)) (cur : list N) :
  List.Forall (fun pt => rstrip pt = pt) (pack_paras L cur paras).
Proof.
  revert cur. induction paras as [|p more IH]; intros cur; cbn [pack_paras].
  - unfold flush. destruct (truthy cur); repeat constructor. apply rstrip_idem.
  - destruct (_ <=? _)%Z; [apply IH|]. apply List.Forall_app. split.
    + unfold flush. destruct (truthy cur); repeat constructor. apply rstrip_idem.
    + destruct (_ >? _)%Z; [|apply IH].
      apply List.Forall_app. split; [apply pack_lines_stripped|apply IH].
Qed.

(** X3: whatever the blob and the limit, the chunker returns at least one
    part, and as many parts as it packed texts; the text of every part has
    no whitespace at its end (the part returned is that text, behind its
    header when there are several parts). *)
Theorem chunk_message_parts (body : list N) (L : Z) :
  chunk_message body L <> [] /\
  length (chunk_message body L) = length (chunk_bodies body L) /\
  (forall i pt, chunk_message body L !! i = Some pt ->
     exists text,
       chunk_bodies body L !! i = Some text /\
       rstrip text = text /\
       pt = (if (1 <? length (chunk_bodies body L))%nat
             then part_header i (length (chunk_bodies body L)) ++ text
             else text)).
Proof.
  assert (Hlen : length (chunk_message body L) = length (chunk_bodies body L))
    by apply add_headers_length.
  assert (Hne : chunk_bodies body L <> []).
  { apply pack_paras_some. left. apply split_double_nonempty. }
  split; [|split; [exact Hlen|]].
  - intros E. rewrite E in Hlen. destruct (chunk_bodies body L); [congruence|discriminate].
  - intros i pt Hpt.
    destruct (chunk_bodies body L !! i) as [text|] eqn:Et.
    + exists text. split; [reflexivity|]. split.
      * pose proof (pack_paras_stripped L (split_double nl body) []) as F.
        apply (proj1 (List.Forall_forall _ _) F).
        apply list_elem_of_In. eapply list_elem_of_lookup_2. exact Et.
      * pose proof (add_headers_lookup _ _ _ Et) as E.
        unfold chunk_message in Hpt. rewrite E in Hpt. congruence.
    + apply lookup_ge_None in Et. apply lookup_lt_Some in Hpt. lia.
Qed.

Lemma pack_paras_all_fit (L : Z) (paras : list (list N)) (cur : list N) :
  (len cur + len (glue paras) <= L)%Z ->
  pack_paras L cur paras = flush (cur ++ glue paras).
Proof.
  revert cur. induction paras as [|p more IH]; intros cur H.
  - cbn. rewrite app_nil_r. reflexivity.
  - cbn [pack_paras]. fold nn.
    change (glue (p :: more)) with ((p ++ nn) ++ glue more) in *.
    rewrite len_app in H. pose proof (len_nonneg (glue more)).
    destruct (Z.leb_spec (len cur + len (p ++ nn)) L); [|lia].
    rewrite IH by (rewrite len_app; lia). rewrite <- app_assoc. reflexivity.
Qed.

Lemma glue_split (body : list N) : glue (split_double nl body) = body ++ nn.
Proof.
  rewrite glue_join by apply split_double_nonempty.
  unfold nn. rewrite join_split_double. reflexivity.
Qed.

(** X4: a blob that fits within the limit together with the blank-line
    separator put after its last paragraph comes back as one part without a
    header, the blob with its trailing whitespace removed. *)
Theorem chunk_small_blob (body : list N) (L : Z) :
  (len body + 2 <= L)%Z -> chunk_message body L = [rstrip body].
Proof.
  intros H. unfold chunk_message, chunk_bodies.
  rewrite pack_paras_all_fit.
  - rewrite glue_split. cbn [app]. unfold flush.
    rewrite truthy_app_r by reflexivity.
    unfold nn. change (body ++ [nl; nl]) with (body ++ [nl] ++ [nl]).
    rewrite app_assoc, !rstrip_newline. reflexivity.
  - rewrite glue_split, len_app. change (len []) with 0%Z. change (len nn) with 2%Z. lia.
Qed.

Lemma chunk_small_blob_witness :
  chunk_message (u "Rest day \n\nSee you tomorrow\n") 1500
  = [u "Rest day \n\nSee you tomorrow"].
Proof.
  rewrite (chunk_small_blob (u "Rest day \n\nSee you tomorrow\n") 1500).
  - vm_compute. reflexivity.
  - vm_compute. discriminate.
Defined.

Ltac decide_leb :=
  repeat match goal with
  | |- context [(?a <=? ?b)%Z] =>
      destruct (Z.leb_spec a b); [try lia|try lia]
  | |- context [(?a >? ?b)%Z] =>
      destruct (Z.gtb_spec a b); [try lia|try lia]
  end.

(** X5: a one-line blob of length L - 1 or L is within the limit but does
    not fit with the separator put after it, and goes through the line
    fallback: with length L - 1 it is followed by an empty part, with length
    L it stands between two empty parts, and every part gets a header. *)
Theorem chunk_line_at_limit (ln : list N) (L : Z) :
  ~ In nl ln ->
  ((len ln + 1 = L)%Z ->
     chunk_message ln L = [part_header 0 2 ++ rstrip ln; part_header 1 2]) /\
  (len ln = L ->
     chunk_message ln L =
       [part_header 0 3; part_header 1 3 ++ rstrip ln; part_header 2 3]).
Proof.
  intros Hnl. pose proof (len_nonneg ln) as Hpos.
  split; intros HL.
  - assert (E : chunk_bodies ln L = [rstrip ln; []]).
    { unfold chunk_bodies. rewrite split_double_absent by exact Hnl.
      cbn [pack_paras]. rewrite !len_app.
      change (len []) with 0%Z. change (len [nl; nl]) with 2%Z.
      decide_leb. rewrite split_char_last by exact Hnl.
      cbn [pack_lines flush truthy app]. rewrite !len_app.
      change (len []) with 0%Z. change (len [nl]) with 1%Z.
      decide_leb. rewrite rstrip_newline. reflexivity. }
    unfold chunk_message. rewrite E. cbn. rewrite app_nil_r. reflexivity.
  - assert (E : chunk_bodies ln L = [[]; rstrip ln; []]).
    { unfold chunk_bodies. rewrite split_double_absent by exact Hnl.
      cbn [pack_paras]. rewrite !len_app.
      change (len []) with 0%Z. change (len [nl; nl]) with 2%Z.
      decide_leb. rewrite split_char_last by exact Hnl.
      cbn [pack_lines flush truthy app]. rewrite !len_app.
      change (len []) with 0%Z. change (len [nl]) with 1%Z.
      decide_leb. rewrite rstrip_newline. reflexivity. }
    unfold chunk_message. rewrite E. cbn. rewrite app_nil_r. reflexivity.
Qed.

Lemma chunk_line_at_limit_witness :
  chunk_message (repeat 97 1499) 1500
  = [u "(Part 1/2)\n\n" ++ repeat 97 1499; u "(Part 2/2)\n\n"] /\
  length (chunk_message (repeat 97 1500) 1500) = 3%nat.
Proof.
  assert (Hnl : forall n, ~ In nl (repeat 97 n))
    by (intros n H; apply repeat_spec in H; discriminate).
  split.
  - destruct (chunk_line_at_limit (repeat 97 1499) 1500 (Hnl _)) as [E _].
    rewrite E by (vm_compute; reflexivity). vm_compute. reflexivity.
  - destruct (chunk_line_at_limit (repeat 97 1500) 1500 (Hnl _)) as [_ E].
    rewrite E by (vm_compute; reflexivity). reflexivity.
Defined.

(** When every paragraph fits with its separator, the loop only closes a
    group of whole paragraphs and starts the next one. *)
Lemma pack_paras_groups (L : Z) (paras g0 : list (list N)) :
  List.Forall (fun p => (len p + 2 <= L)%Z) paras ->
  (len (glue g0) <= L)%Z ->
  exists groups,
    concat groups = g0 ++ paras /\
    List.Forall (fun g => g <> [] /\ (len (glue g) <= L)%Z) groups /\
    pack_paras L (glue g0) paras = List.map (fun g => rstrip (glue g)) groups.
Proof.
  revert g0. induction paras as [|p more IH]; intros g0 Hfit Hg0.
  - destruct g0 as [|q g0'].
    + exists []. repeat split; constructor.
    + exists [q :: g0']. rewrite app_nil_r. split; [cbn [concat]; apply app_nil_r|].
      split; [repeat constructor; [discriminate|exact Hg0]|].
      cbn [pack_paras List.map]. unfold flush.
      rewrite glue_truthy by discriminate. reflexivity.
  - apply List.Forall_cons_iff in Hfit as [Hp Hmore].
    cbn [pack_paras]. fold nn.
    assert (Hadd : len (p ++ nn) = (len p + 2)%Z) by (rewrite len_app; reflexivity).
    destruct (Z.leb_spec (len (glue g0) + len (p ++ nn)) L) as [Hin|Hover].
    + rewrite <- glue_snoc.
      destruct (IH (g0 ++ [p]) Hmore) as (groups & Hc & Hg & E).
      { rewrite glue_snoc, len_app. exact Hin. }
      exists groups. rewrite <- app_assoc in Hc. auto.
    + destruct (Z.gtb_spec (len (p ++ nn)) L) as [Hbig|_]; [lia|].
      assert (Hne : g0 <> []).
      { intros ->. change (len (glue [])) with 0%Z in Hover. lia. }
      destruct (IH [p] Hmore) as (groups & Hc & Hg & E).
      { change (glue [p]) with ((p ++ nn) ++ []). rewrite app_nil_r. lia. }
      change (glue [p]) with ((p ++ nn) ++ []) in E. rewrite app_nil_r in E.
      exists (g0 :: groups). split; [cbn [concat]; rewrite Hc; reflexivity|].
      split; [constructor; [split; assumption|exact Hg]|].
      unfold flush. rewrite glue_truthy by exact Hne.
      cbn [app List.map]. rewrite E. reflexivity.
Qed.

(** X6: when every paragraph of the blob fits within the limit with its
    separator, no paragraph is split: the texts of the parts are groups of
    whole consecutive paragraphs, every paragraph in exactly one group and in
    order, each group joined by blank lines, within the limit, and with the
    whitespace at its end removed. *)
Theorem chunk_keeps_paragraphs (body : list N) (L : Z) :
  List.Forall (fun p => (len p + 2 <= L)%Z) (split_double nl body) ->
  exists groups,
    concat groups = split_double nl body /\
    List.Forall (fun g => g <> [] /\ (len (join [nl; nl] g) + 2 <= L)%Z) groups /\
    chunk_bodies body L = List.map (fun g => rstrip (join [nl; nl] g)) groups.
Proof.
  intros H. pose proof (len_nonneg body).
  destruct (pack_paras_groups L (split_double nl body) [] H) as (groups & Hc & Hg & E).
  { pose proof (split_double_nonempty nl body) as Hne.
    destruct (split_double nl body) as [|p ps]; [congruence|].
    apply List.Forall_inv in H. pose proof (len_nonneg p).
    change (len (glue [])) with 0%Z. lia. }
  exists groups. split; [exact Hc|]. split.
  - eapply List.Forall_impl; [|exact Hg]. intros g [Hne Hlen].
    split; [exact Hne|]. rewrite glue_join, len_app in Hlen by exact Hne.
    exact Hlen.
  - unfold chunk_bodies. change (@nil N) with (glue []). rewrite E.
    apply List.map_ext_in. intros g Hin.
    apply (proj1 (List.Forall_forall _ _) Hg) in Hin as [Hne _].
    rewrite glue_join by exact Hne. unfold nn.
    change (join [nl; nl] g ++ [nl; nl]) with (join [nl; nl] g ++ [nl] ++ [nl]).
    rewrite app_assoc, !rstrip_newline. reflexivity.
Qed.

Lemma chunk_keeps_paragraphs_witness :
  exists groups,
    concat groups = split_double nl five_paragraphs /\
    List.Forall (fun g => g <> [] /\ (len (join [nl; nl] g) + 2 <= 1500)%Z) groups /\
    chunk_bodies five_paragraphs 1500
    = List.map (fun g => rstrip (join [nl; nl] g)) groups.
Proof.
  apply (chunk_keeps_paragraphs five_paragraphs 1500).
  vm_compute. repeat constructor; discriminate.
Defined.

(** ** Delivery client: what is submitted *)

Section DeliveryLog.

Variable create : message -> option str.

Lemma send_parts_fail_fast (from_num to_ : list N) (parts : list (list N)) :
  fail_fast create (schedule from_num [to_] parts) (send_parts create from_num to_ parts).
Proof.
  unfold schedule. cbn [flat_map]. rewrite app_nil_r.
  induction parts as [|part more IH]; cbn [send_parts List.map].
  - split; [reflexivity|constructor].
  - destruct (create _) as [sid|] eqn:Ec.
    + assert (Ha : accepted create {| from_ := from_num; to := to_; body := part |})
        by (unfold accepted; congruence).
      unfold fail_fast in *.
      destruct (send_parts create from_num to_ more) as [[[]|e] sent]; cbn [fst snd] in *.
      * destruct IH as [-> IH]. split; [reflexivity|constructor; assumption].
      * destruct IH as (-> & before & m & after & E1 & E2 & Hb & Hm).
        split; [reflexivity|].
        exists ({| from_ := from_num; to := to_; body := part |} :: before), m, after.
        rewrite E1, E2. repeat split; [constructor; assumption|exact Hm].
    + split; [reflexivity|].
      exists [], {| from_ := from_num; to := to_; body := part |},
             (List.map (fun p => {| from_ := from_num; to := to_; body := p |}) more).
      repeat split; [constructor|exact Ec].
Qed.

Lemma send_all_fail_fast (from_num : list N) (to_list parts : list (list N)) :
  fail_fast create (schedule from_num to_list parts) (send_all create from_num to_list parts).
Proof.
  induction to_list as [|to_ more IH]; cbn [send_all].
  - split; [reflexivity|constructor].
  - pose proof (send_parts_fail_fast from_num to_ parts) as Hp.
    change (schedule from_num (to_ :: more) parts)
      with (List.map (fun p => {| from_ := from_num; to := to_; body := p |}) parts
            ++ schedule from_num more parts).
    unfold schedule in Hp. cbn [flat_map] in Hp. rewrite app_nil_r in Hp.
    unfold fail_fast in *.
    destruct (send_parts create from_num to_ parts) as [[[]|e] sent]; cbn [fst snd] in *.
    + destruct Hp as [-> Hp].
      destruct (send_all create from_num more parts) as [[[]|e] sent']; cbn [fst snd] in *.
      * destruct IH as [-> IH]. split; [reflexivity|].
        apply List.Forall_app. split; assumption.
      * destruct IH as (-> & before & m & after & E1 & E2 & Hb & Hm).
        split; [reflexivity|].
        exists (List.map (fun p => {| from_ := from_num; to := to_; body := p |}) parts
                ++ before), m, after.
        rewrite E1, E2, <- !app_assoc. repeat split; [|exact Hm].
        apply List.Forall_app. split; assumption.
    + destruct Hp as (-> & before & m & after & E1 & E2 & Hb & Hm).
      split; [reflexivity|].
      exists before, m, (after ++ schedule from_num more parts).
      rewrite E1, E2, <- app_assoc. repeat split; assumption.
Qed.

Lemma credentials_present (env : Env) :
  ~ credentials_missing env ->
  missing (TWILIO_ACCOUNT_SID env) || missing (TWILIO_AUTH_TOKEN env)
    || no_items (recipients env) = false.
Proof.
  intros H. destruct (_ || _ || _) eqn:E; [|reflexivity].
  destruct H. unfold credentials_missing.
  rewrite !orb_true_iff in E.
  destruct E as [[E|E]|E]; [auto..|].
  right. right. destruct (recipients env); [reflexivity|discriminate].
Qed.

(** X7: with credentials and recipients configured, the client submits the
    parts recipient by recipient, each recipient getting every part in
    order, from the configured sender or else the sandbox number; it stops
    at the first message the provider refuses, which is the last one
    submitted, and ends without error only when every message of every
    recipient was accepted. *)
Theorem send_whatsapp_parts_fail_fast (env : Env) (parts : list (list N)) :
  ~ credentials_missing env ->
  fail_fast create (schedule (sender env) (recipients env) parts)
            (send_whatsapp_parts create env parts).
Proof.
  intros H. unfold send_whatsapp_parts.
  rewrite (credentials_present env H). apply send_all_fail_fast.
Qed.

End DeliveryLog.

Lemma send_whatsapp_parts_fail_fast_witness :
  fail_fast (fun m => if bool_decide (body m = u "two") then None else Some (u "SM1"))
    (schedule (sender two_recipients) (recipients two_recipients)
              [u "one"; u "two"; u "three"])
    (send_whatsapp_parts
       (fun m => if bool_decide (body m = u "two") then None else Some (u "SM1"))
       two_recipients [u "one"; u "two"; u "three"]).
Proof.
  apply send_whatsapp_parts_fail_fast.
  unfold credentials_missing. vm_compute. intros [E|[E|E]]; discriminate.
Defined.

(** Two recipients, three parts, the provider refusing the second part: the
    first recipient gets one part, the refused one is the last submitted. *)
Example send_stops_at_refusal :
  send_whatsapp_parts (fun m => if bool_decide (body m = u "two") then None else Some (u "SM1"))
    two_recipients [u "one"; u "two"; u "three"]
  = (Raise TwilioError,
     [ {| from_ := u "whatsapp:+14155238886"; to := u "whatsapp:+911234567890";
          body := u "one" |};
       {| from_ := u "whatsapp:+14155238886"; to := u "whatsapp:+911234567890";
          body := u "two" |} ]).
Proof. vm_compute. reflexivity. Qed.

(** ** Delivery client: the recipients *)

Lemma split_char_no_sep (c : char) (s : list N) :
  List.Forall (fun p => ~ In c p) (split_char c s).
Proof.
  induction s as [|x r IH]; cbn [split_char].
  - repeat constructor. intros [].
  - destruct (N.eqb_spec x c) as [->|Hne].
    + constructor; [intros []|exact IH].
    + destruct (split_char c r) as [|p ps]; [repeat constructor; intros [H|[]]; congruence|].
      apply List.Forall_cons_iff in IH as [Hp Hps].
      constructor; [|exact Hps]. intros [H|H]; [congruence|exact (Hp H)].
Qed.

Lemma lstrip_suffix (s : list N) : exists w, s = w ++ lstrip s.
Proof.
  induction s as [|c s [w IH]]; [exists []; reflexivity|]. cbn [lstrip].
  destruct (isspace c); [|exists []; reflexivity].
  exists (c :: w). cbn [app]. rewrite <- IH. reflexivity.
Qed.

Lemma rstrip_prefix (s : list N) : exists w, s = rstrip s ++ w.
Proof.
  destruct (lstrip_suffix (rev s)) as [w E]. exists (rev w). unfold rstrip.
  rewrite <- rev_app_distr, <- E, rev_involutive. reflexivity.
Qed.

Lemma strip_In (x : N) (s : list N) : In x (strip s) -> In x s.
Proof.
  unfold strip. intros H.
  destruct (rstrip_prefix (lstrip s)) as [w E].
  destruct (lstrip_suffix s) as [w' E'].
  rewrite E'. apply in_or_app. right. rewrite E. apply in_or_app. left. exact H.
Qed.

Lemma lstrip_fixed_prefix (t r w : list N) :
  lstrip t = t -> t = r ++ w -> lstrip r = r.
Proof.
  intros Ht ->. destruct r as [|c r]; [reflexivity|].
  cbn [app lstrip] in *. destruct (isspace c); [|reflexivity].
  pose proof (lstrip_length (r ++ w)) as Hl. rewrite Ht in Hl. cbn in Hl. lia.
Qed.

Lemma strip_idem (s : list N) : strip (strip s) = strip s.
Proof.
  unfold strip.
  destruct (rstrip_prefix (lstrip s)) as [w E].
  rewrite (lstrip_fixed_prefix (lstrip s) (rstrip (lstrip s)) w (lstrip_idem s) E).
  apply rstrip_idem.
Qed.

(** X8: the recipients read from [WHATSAPP_TO_LIST] are the comma-separated
    entries with the blanks around them removed, in their order and with
    repeats kept; an entry that is empty or blank is dropped, so every
    recipient is non-empty, has no whitespace at either end and no comma. *)
Theorem recipients_trimmed (env : Env) :
  recipients env =
    List.filter truthy
      (List.map strip (split_char 44 (default [] (WHATSAPP_TO_LIST env)))) /\
  List.Forall (fun r => r <> [] /\ strip r = r /\ ~ In 44 r) (recipients env).
Proof.
  unfold recipients.
  set (pieces := split_char 44 (default [] (WHATSAPP_TO_LIST env))).
  assert (Hp : List.Forall (fun p => ~ In 44 p) pieces) by apply split_char_no_sep.
  clearbody pieces. split.
  - induction pieces as [|p ps IH]; [reflexivity|].
    apply List.Forall_cons_iff in Hp as [_ Hps].
    cbn [List.filter List.map]. destruct (truthy (strip p)); cbn [List.map];
      rewrite IH by exact Hps; reflexivity.
  - induction pieces as [|p ps IH]; [constructor|].
    apply List.Forall_cons_iff in Hp as [Hp Hps].
    cbn [List.filter]. destruct (truthy (strip p)) eqn:E; [|apply IH, Hps].
    cbn [List.map]. constructor; [|apply IH, Hps].
    split; [intros E'; rewrite E' in E; discriminate|].
    split; [apply strip_idem|]. intros H. apply Hp. apply (strip_In _ _ H).
Qed.

(** Blanks around the entries and an empty entry: two recipients. *)
Example recipients_of_two :
  recipients two_recipients = [u "whatsapp:+911234567890"; u "whatsapp:+919876543210"].
Proof. vm_compute. reflexivity. Qed.

(** ** The automatic run and the state file *)

Section RunFacts.

Variable create : message -> option str.



(** X10: the one-time override is used up by the selector itself, before
    anything is rendered or sent: with the flag set, a preview shows the
    stored day and leaves the flag cleared, and a run whose delivery fails
    leaves it cleared too, with the stored day kept; the run after that
    selects by weekday. *)
Theorem rest_flag_consumed_before_send (df : DataFrame) (limit : Z) (wd wd' : nat)
    (st : RunState) (env : Env) :
  ordered_unique_days df <> [] ->
  rest_today st = true ->
  let cleared := Some {| last_day := last_day st; rest_today := false |} in
  cmd_preview df limit wd (Some st)
  = (Ok (chunk_message (build_message_for_day df (last_day st)) limit), cleared) /\
  (forall e sent,
     send_whatsapp_parts create env
       (chunk_message (build_message_for_day df (last_day st)) limit) = (Raise e, sent) ->
     job_send_today create df limit wd (Some st) env = (Raise e, cleared, sent)) /\
  exists d,
    ordered_unique_days df !! (wd' mod length (ordered_unique_days df))%nat = Some d /\
    pick_day_for_today (ordered_unique_days df) wd' cleared = (Ok d, cleared).
Proof.
  intros Hne Hrest cleared.
  assert (Hpick : pick_day_for_today (ordered_unique_days df) wd (Some st)
                  = (Ok (last_day st), cleared)).
  { unfold pick_day_for_today.
    destruct (ordered_unique_days df) as [|d0 ds]; [congruence|].
    cbn [length]. rewrite Hrest. reflexivity. }
  split; [unfold cmd_preview; rewrite Hpick; reflexivity|]. split.
  - intros e sent E. unfold job_send_today. rewrite Hpick, E. reflexivity.
  - destruct (pick_day_by_index _ wd' Hne) as [d Hd]. exists d.
    split; [exact Hd|]. apply pick_day_default; [exact Hd|reflexivity].
Qed.

End RunFacts.

Lemma rest_flag_consumed_before_send_witness :
  cmd_preview five_day_plan 1500 2 resting
  = (Ok (chunk_message (build_message_for_day five_day_plan (u "Push Day")) 1500),
     Some {| last_day := u "Push Day"; rest_today := false |}) /\
  job_send_today (fun _ => None) five_day_plan 1500 2 resting no_env
  = (Raise (RuntimeError (u "Missing Twilio creds in .env")),
     Some {| last_day := u "Push Day"; rest_today := false |}, []).
Proof.
  destruct (rest_flag_consumed_before_send (fun _ => None) five_day_plan 1500 2 3
              {| last_day := u "Push Day"; rest_today := true |} no_env)
    as (P & J & _).
  - vm_compute. discriminate.
  - reflexivity.
  - split; [exact P|]. apply J. vm_compute. reflexivity.
Defined.

(** ** Day selector: the weekday *)

(** X11: the weekday index is below 7, so without the override the selector
    returns one of the first seven days of the list, the day at the weekday
    index when the list has more than that index; in a list without repeats
    a day from the eighth on is never selected by an automatic run. *)
Theorem pick_day_first_seven (days : list (list N)) (wd : nat) (file : option RunState) :
  (wd < 7)%nat ->
  days <> [] ->
  match file with Some st => rest_today st = false | None => True end ->
  exists d,
    pick_day_for_today days wd file = (Ok d, file) /\
    days !! (wd mod length days)%nat = Some d /\
    (wd mod length days < 7)%nat /\
    ((wd < length days)%nat -> days !! wd = Some d) /\
    (List.NoDup days -> forall j, (7 <= j)%nat -> days !! j <> Some d).
Proof.
  intros Hwd Hne Hfile.
  destruct (pick_day_by_index days wd Hne) as [d Hd]. exists d.
  assert (Hlen : (length days <> 0)%nat) by (destruct days; cbn; congruence).
  assert (Hlt : (wd mod length days < 7)%nat).
  { pose proof (Nat.Div0.mod_le wd (length days)). lia. }
  split; [apply pick_day_default; assumption|].
  split; [exact Hd|]. split; [exact Hlt|]. split.
  - intros H. rewrite Nat.mod_small in Hd by exact H. exact Hd.
  - intros Hnd j Hj E.
    apply NoDup_ListNoDup in Hnd.
    pose proof (proj1 (NoDup_alt days) Hnd _ _ _ Hd E). lia.
Qed.

Lemma pick_day_first_seven_witness :
  exists d,
    pick_day_for_today five_days 6 None = (Ok d, None) /\
    five_days !! (6 mod length five_days)%nat = Some d.
Proof.
  destruct (pick_day_first_seven five_days 6 None) as (d & P & L & _).
  - lia.
  - discriminate.
  - exact I.
  - exists d. split; assumption.
Defined.

(** ** Alias builder: the listing and the range of the map *)

Lemma alias_step_rows (ds : list (list N)) (d : list N) (st : alias_state) :
  alias_inv ds st ->
  rows (alias_step st d)
  = rows st ++ [(classify_day d
                   ++ str_of_nat (S (length (cat_days (classify_day d) ds))), d)].
Proof.
  intros [Hcounts _ _]. unfold alias_step. cbn [rows].
  rewrite (Hcounts _ (classify_day_category d)). cbn [from_option id].
  rewrite lookup_total_insert_eq, Nat.add_1_r. reflexivity.
Qed.

Lemma alias_rows_inv (ds : list (list N)) :
  List.map snd (rows (alias_loop ds)) = ds /\
  List.Forall (fun row => alias_rel ds (fst row) (snd row)) (rows (alias_loop ds)) /\
  List.NoDup (List.map fst (rows (alias_loop ds))).
Proof.
  induction ds as [|d ds (IH1 & IH2 & IH3)] using rev_ind.
  - cbn. repeat split; constructor.
  - rewrite alias_loop_snoc, (alias_step_rows ds d _ (alias_loop_inv ds)).
    rewrite !List.map_app. cbn [List.map fst snd].
    split; [rewrite IH1; reflexivity|]. split.
    + apply List.Forall_app. split.
      * eapply List.Forall_impl; [|exact IH2]. intros row H.
        apply alias_rel_snoc. right. right. exact H.
      * constructor; [|constructor]. cbn [fst snd]. apply alias_rel_snoc. left. auto.
    + apply NoDup_ListNoDup. apply NoDup_ListNoDup in IH3.
      apply NoDup_app. split; [exact IH3|]. split; [|apply NoDup_singleton].
      intros a Ha Hnew. apply list_elem_of_singleton in Hnew. subst a.
      apply list_elem_of_In, List.in_map_iff in Ha as (row & E & Hin).
      apply (proj1 (List.Forall_forall _ _) IH2) in Hin. rewrite E in Hin.
      exact (alias_rel_fresh ds d _ Hin).
Qed.

Lemma alias_rel_day (days : list (list N)) (key d : list N) :
  alias_rel days key d -> In d days.
Proof.
  intros [(c & k & _ & _ & H)|[_ H]].
  - apply list_elem_of_lookup_2, list_elem_of_In in H.
    apply List.filter_In in H. apply H.
  - destruct (cat_days key days) as [|x l] eqn:E; [discriminate|].
    injection H as <-.
    assert (Hin : In x (cat_days key days)) by (rewrite E; left; reflexivity).
    apply List.filter_In in Hin. apply Hin.
Qed.

(** X12: the listing returned beside the alias map has one line per day of
    the plan, in the order of the plan, each with a numbered alias of its
    own; the map resolves every listed alias to the day on its line, never
    names a day that is not in the plan, and so every day of the plan can be
    sent by a key. *)
Theorem build_alias_map_listing (df : DataFrame) :
  List.map snd (snd (build_alias_map df)) = ordered_unique_days df /\
  List.NoDup (List.map fst (snd (build_alias_map df))) /\
  (forall a d, In (a, d) (snd (build_alias_map df)) ->
     fst (build_alias_map df) !! a = Some d) /\
  (forall key d, fst (build_alias_map df) !! key = Some d ->
     In d (ordered_unique_days df)) /\
  (forall d, In d (ordered_unique_days df) ->
     exists a, In (a, d) (snd (build_alias_map df)) /\
               fst (build_alias_map df) !! a = Some d).
Proof.
  unfold build_alias_map. cbn [fst snd].
  set (days := ordered_unique_days df).
  destruct (alias_rows_inv days) as (H1 & H2 & H3).
  pose proof (inv_lookup _ _ (alias_loop_inv days)) as Hl.
  assert (Hrow : forall a d, In (a, d) (rows (alias_loop days)) ->
                   alias_to_day (alias_loop days) !! a = Some d).
  { intros a d Hin. apply Hl.
    apply (proj1 (List.Forall_forall _ _) H2) in Hin. exact Hin. }
  split; [exact H1|]. split; [exact H3|]. split; [exact Hrow|]. split.
  - intros key d H. apply Hl in H. apply (alias_rel_day _ _ _ H).
  - intros d Hd. rewrite <- H1 in Hd.
    apply List.in_map_iff in Hd as ([a d'] & E & Hin). cbn in E. subst d'.
    exists a. split; [exact Hin|apply Hrow, Hin].
Qed.

(** ** Manual sends *)

Lemma lower_char_space (c : char) : isspace (lower_char c) = isspace c.
Proof.
  unfold lower_char. destruct ((65 <=? c) && (c <=? 90)) eqn:E; [|reflexivity].
  apply andb_true_iff in E as [E1 E2]. apply N.leb_le in E1, E2.
  rewrite !plain_not_space by lia. reflexivity.
Qed.

Lemma lstrip_lower (s : list N) : lstrip (lower s) = lower (lstrip s).
Proof.
  induction s as [|c s IH]; [reflexivity|].
  cbn [lower List.map lstrip]. rewrite lower_char_space.
  destruct (isspace c); [exact IH|reflexivity].
Qed.

Lemma strip_lower (s : list N) : strip (lower s) = lower (strip s).
Proof.
  unfold strip, rstrip. rewrite lstrip_lower. unfold lower at 1.
  rewrite <- List.map_rev. fold (lower (rev (lstrip s))).
  rewrite lstrip_lower. unfold lower. rewrite List.map_rev. reflexivity.
Qed.

(** Trimming and lower-casing twice is trimming and lower-casing once. *)
Lemma normalise_idem (a : list N) : lower (strip (lower (strip a))) = lower (strip a).
Proof. rewrite strip_lower, strip_idem, lower_idem. reflexivity. Qed.

Lemma digits_range (d : Decimal.uint) :
  List.Forall (fun c => 48 <= c /\ c <= 57) (digits d).
Proof. induction d; cbn [digits]; constructor; (lia || assumption). Qed.

Lemma lower_fixed (s : list N) :
  List.Forall (fun c => c < 65 \/ 90 < c) s -> lower s = s.
Proof.
  induction 1 as [|c s Hc _ IH]; [reflexivity|].
  cbn [lower List.map]. fold (lower s). rewrite IH. f_equal.
  unfold lower_char. destruct ((65 <=? c) && (c <=? 90)) eqn:E; [|reflexivity].
  apply andb_true_iff in E as [E1 E2]. apply N.leb_le in E1, E2. lia.
Qed.

Lemma rstrip_keep_last (q : list N) (z : N) :
  isspace z = false -> rstrip (q ++ [z]) = q ++ [z].
Proof.
  intros Hz. unfold rstrip. rewrite rev_app_distr.
  change (rev [z] ++ rev q) with (z :: rev q).
  cbn [lstrip]. rewrite Hz.
  change (rev (z :: rev q)) with (rev (rev q) ++ [z]).
  rewrite rev_involutive. reflexivity.
Qed.

Lemma strip_fixed (a : N) (s : list N) (z : N) :
  isspace a = false -> isspace z = false -> strip (a :: s ++ [z]) = a :: s ++ [z].
Proof.
  intros Ha Hz. unfold strip. cbn [lstrip]. rewrite Ha.
  apply (rstrip_keep_last (a :: s) z Hz).
Qed.

Lemma category_shape (c : list N) :
  In c categories ->
  exists a s z, c = a :: s ++ [z] /\
    (97 <= a /\ a <= 122) /\ (97 <= z /\ z <= 122) /\
    List.Forall (fun x => 97 <= x /\ x <= 122) s.
Proof.
  intros Hc. category_cases Hc; subst c; eval_lits.
  - exists 112, [117; 108], 108. repeat split; try lia. repeat constructor; lia.
  - exists 112, [117; 115], 104. repeat split; try lia. repeat constructor; lia.
  - exists 108, [101; 103], 115. repeat split; try lia. repeat constructor; lia.
  - exists 99, [97; 114; 100; 105], 111. repeat split; try lia. repeat constructor; lia.
  - exists 103, [101; 110; 101; 114; 97], 108. repeat split; try lia.
    repeat constructor; lia.
Qed.

(** Every key of the alias map is as the command normalises what is typed. *)
Lemma alias_key_normal (days : list (list N)) (key d : list N) :
  alias_rel days key d -> lower (strip key) = key.
Proof.
  assert (Hcat : forall c x,
            In c categories -> List.Forall (fun y => 48 <= y /\ y <= 57) x ->
            lower (strip (c ++ x)) = c ++ x).
  { intros c x Hc Hx.
    destruct (category_shape c Hc) as (a & s & z & -> & Ha & Hz & Hs).
    assert (E : exists s' z', (a :: s ++ [z]) ++ x = a :: s' ++ [z'] /\
                  isspace z' = false /\
                  List.Forall (fun y => y < 65 \/ 90 < y) (a :: s' ++ [z'])).
    { assert (Hs' : List.Forall (fun y => y < 65 \/ 90 < y) s)
        by (eapply List.Forall_impl; [|exact Hs]; intros ? [? ?]; cbn beta; lia).
      induction x as [|y x' _] using rev_ind.
      - exists s, z. rewrite app_nil_r. split; [reflexivity|].
        split; [apply plain_not_space; lia|].
        constructor; [lia|]. apply (proj2 (List.Forall_app _ _ _)).
        split; [exact Hs'|]. constructor; [lia|constructor].
      - apply List.Forall_app in Hx as [Hx' Hy]. apply List.Forall_inv in Hy.
        exists (s ++ z :: x'), y. split.
        { cbn [app]. rewrite <- !app_assoc. reflexivity. }
        split; [apply plain_not_space; lia|].
        constructor; [lia|].
        apply (proj2 (List.Forall_app _ _ _)). split; [|constructor; [lia|constructor]].
        apply (proj2 (List.Forall_app _ _ _)). split; [exact Hs'|].
        constructor; [lia|].
        eapply List.Forall_impl; [|exact Hx']. intros ? [? ?]; cbn beta; lia. }
    destruct E as (s' & z' & -> & Hz' & Hlow).
    rewrite strip_fixed by (assumption || (apply plain_not_space; lia)).
    apply lower_fixed, Hlow. }
  intros [(c & k & Hc & -> & _)|[Hc _]].
  - apply Hcat; [exact Hc|apply digits_range].
  - rewrite <- (app_nil_r key). apply Hcat; [exact Hc|constructor].
Qed.

Section CommandFacts.

Variable create : message -> option str.

(** X13: [--send-key] looks the key up after trimming it and lower-casing
    it, and every key of the alias map is already in that form: a listed
    alias is found as it is listed, in any letter case and with blanks
    around it, and the command then does for its day what [--send-day] does
    for a day of the plan; a key that is not in the map sends nothing and
    leaves the state file. *)
Theorem cmd_send_key_resolves (df : DataFrame) (limit : Z) (file : option RunState)
    (env : Env) (arg : list N) :
  cmd_send_key create df limit file env arg
  = cmd_send_key create df limit file env (lower (strip arg)) /\
  (forall key, is_Some (fst (build_alias_map df) !! key) -> lower (strip key) = key) /\
  (forall d, fst (build_alias_map df) !! lower (strip arg) = Some d ->
     In d (ordered_unique_days df) /\
     cmd_send_key create df limit file env arg = deliver_day create df limit file env d /\
     (strip d = d ->
      cmd_send_key create df limit file env arg
      = cmd_send_day create df limit file env d)) /\
  (fst (build_alias_map df) !! lower (strip arg) = None ->
   cmd_send_key create df limit file env arg = (Ok tt, file, [])).
Proof.
  pose proof (inv_lookup _ _ (alias_loop_inv (ordered_unique_days df))) as Hl.
  split; [unfold cmd_send_key; rewrite normalise_idem; reflexivity|].
  split.
  { intros key [d Hd]. unfold build_alias_map in Hd. cbn [fst] in Hd.
    apply Hl in Hd. apply (alias_key_normal _ _ _ Hd). }
  split.
  - intros d Hd.
    assert (Hin : In d (ordered_unique_days df)).
    { unfold build_alias_map in Hd. cbn [fst] in Hd. apply Hl in Hd.
      apply (alias_rel_day _ _ _ Hd). }
    split; [exact Hin|].
    assert (E : cmd_send_key create df limit file env arg
                = deliver_day create df limit file env d)
      by (unfold cmd_send_key; rewrite Hd; reflexivity).
    split; [exact E|]. intros Hs. rewrite E. unfold cmd_send_day. rewrite Hs.
    destruct (decide (d ∈ ordered_unique_days df)) as [_|Hn]; [reflexivity|].
    destruct Hn. apply list_elem_of_In, Hin.
  - intros Hn. unfold cmd_send_key. rewrite Hn. reflexivity.
Qed.



End CommandFacts.

(** One push day in the plan: [push2] is no alias, nothing is sent; [ PUSH1 ]
    is the alias [push1] of that day. *)
Example send_key_push2 :
  cmd_send_key (fun _ => Some (u "SM1")) five_day_plan 1500 None two_recipients (u "push2")
  = (Ok tt, None, []) /\
  fst (build_alias_map five_day_plan) !! lower (strip (u " PUSH1 ")) = Some (u "Push Day").
Proof. split; vm_compute; reflexivity. Qed.

(** ** The fixed tables and the code that reads them *)

Lemma table_keys {A : Type} (l : list (list N * A)) (k : list N) :
  is_Some ((list_to_map l : gmap (list N) A) !! k) <-> k ∈ l.*1.
Proof.
  rewrite <- not_eq_None_Some, <- not_elem_of_list_to_map.
  destruct (decide (k ∈ l.*1)); tauto.
Qed.

Lemma warmups_of_category (c : list N) :
  In c categories ->
  exists w, WARMUPS !! c = Some w /\ length w = 2%nat.
Proof.
  intros Hc. category_cases Hc; subst c; eexists; (split; [vm_compute; reflexivity|reflexivity]).
Qed.

Lemma cooldowns_of_category (c : list N) :
  In c categories ->
  exists w, COOLDOWNS !! c = Some w /\ (2 <= length w <= 3)%nat.
Proof.
  intros Hc. category_cases Hc; subst c; eexists;
    (split; [vm_compute; reflexivity|cbn [length]; lia]).
Qed.

(** X15: the tables agree with the code that reads them.  Every category
    the classifier can return has its own warm-up list (two names) and
    cool-down list (two or three), so the fallback to the general lists is
    never taken; the form cues and the prescriptions are given for the same
    exercises and no cue is empty, so an entry has its form-cue sub-line
    exactly when it has its prescription sub-line. *)
Theorem fixed_tables_cover :
  (forall day,
     exists w c,
       WARMUPS !! classify_day day = Some w /\
       table_for WARMUPS (classify_day day) = w /\ length w = 2%nat /\
       COOLDOWNS !! classify_day day = Some c /\
       table_for COOLDOWNS (classify_day day) = c /\ (2 <= length c <= 3)%nat) /\
  (forall ex, is_Some (FORM_CUES !! ex) <-> is_Some (EXERCISE_PRESCRIPTIONS !! ex)) /\
  (forall ex cue, FORM_CUES !! ex = Some cue -> truthy cue = true) /\
  (forall ex, cue_line ex = [] <-> prescription_line ex = []).
Proof.
  assert (Hsame : forall ex,
            is_Some (FORM_CUES !! ex) <-> is_Some (EXERCISE_PRESCRIPTIONS !! ex)).
  { intros ex. unfold FORM_CUES, EXERCISE_PRESCRIPTIONS. rewrite !table_keys.
    match goal with
    | |- _ ∈ ?a <-> _ ∈ ?b =>
        replace b with a by (vm_compute; reflexivity)
    end.
    reflexivity. }
  assert (Hcue : forall ex cue, FORM_CUES !! ex = Some cue -> truthy cue = true).
  { intros ex cue H. unfold FORM_CUES in H. apply elem_of_list_to_map_2 in H.
    apply list_elem_of_In in H. revert H.
    match goal with
    | |- In _ ?l -> _ =>
        assert (F : List.Forall (fun kv => truthy (snd kv) = true) l)
          by (repeat (constructor; [vm_compute; reflexivity|]); constructor)
    end.
    intros H. apply (proj1 (List.Forall_forall _ _) F _ H). }
  split.
  { intros day.
    destruct (warmups_of_category _ (classify_day_category day)) as (w & Hw & Lw).
    destruct (cooldowns_of_category _ (classify_day_category day)) as (c & Hc & Lc).
    exists w, c. unfold table_for. rewrite Hw, Hc. auto 10. }
  split; [exact Hsame|]. split; [exact Hcue|].
  intros ex. unfold cue_line, prescription_line.
  pose proof (Hsame ex) as [H1 H2]. pose proof (Hcue ex) as H3.
  destruct (FORM_CUES !! ex) as [cue|], (EXERCISE_PRESCRIPTIONS !! ex) as [pres|].
  - rewrite (H3 cue eq_refl). split; intros E.
    + eval_lits. cbn [app] in E. discriminate.
    + eval_lits. cbn [app] in E. discriminate.
  - destruct H1 as [? H1]; [eauto|discriminate].
  - destruct H2 as [? H2]; [eauto|discriminate].
  - tauto.
Qed.

(** ** The paragraphs of a rendered message *)

Lemma tight_head (s : list N) :
  tight s = true -> exists x r, s = x :: r /\ x <> nl.
Proof.
  destruct s as [|x r]; [discriminate|]. cbn [tight].
  intros H. apply andb_true_iff in H as [H _].
  exists x, r. split; [reflexivity|].
  apply N.eqb_neq. destruct (x =? nl); [discriminate|reflexivity].
Qed.

Lemma tight_cons (x : N) (r : list N) :
  tight (x :: r) =
    negb (x =? nl) &&
    match r with
    | [] => true
    | y :: r' => if y =? nl then tight r' else tight r
    end.
Proof. reflexivity. Qed.

Lemma tight_one_line (s : list N) : s <> [] -> one_line s -> tight s = true.
Proof.
  intros Hne H. induction H as [|x r Hx Hr IH]; [congruence|].
  rewrite tight_cons. apply N.eqb_neq in Hx. rewrite Hx. cbn [negb andb].
  destruct r as [|y r']; [reflexivity|].
  pose proof (List.Forall_inv Hr) as Hy. apply N.eqb_neq in Hy. rewrite Hy.
  apply IH. discriminate.
Qed.

Lemma tight_app_nl (b : list N) :
  tight b = true -> forall a, tight a = true -> tight (a ++ nl :: b) = true.
Proof.
  intros Hb.
  enough (H : forall n a, (length a <= n)%nat -> tight a = true ->
                          tight (a ++ nl :: b) = true)
    by (intros a; apply (H (length a)); lia).
  induction n as [|n IH]; intros a Hlen Ha.
  - destruct a; [discriminate|cbn in Hlen; lia].
  - destruct a as [|x r]; [discriminate|].
    rewrite tight_cons in Ha. apply andb_true_iff in Ha as [Hx Hr].
    cbn [app]. rewrite tight_cons, Hx. cbn [andb].
    destruct r as [|y r'].
    + cbn [app]. rewrite N.eqb_refl. exact Hb.
    + cbn [app]. destruct (y =? nl) eqn:Ey.
      * apply IH; [cbn in Hlen; lia|exact Hr].
      * apply (IH (y :: r')); [cbn in Hlen |- *; lia|exact Hr].
Qed.

Lemma tight_join (ls : list (list N)) :
  ls <> [] -> List.Forall (fun l => tight l = true) ls -> tight (join [nl] ls) = true.
Proof.
  intros Hne H. induction H as [|l ls Hl Hls IH]; [congruence|].
  destruct ls as [|l' ls']; [exact Hl|].
  change (join [nl] (l :: l' :: ls')) with (l ++ nl :: join [nl] (l' :: ls')).
  apply tight_app_nl; [apply IH; discriminate|exact Hl].
Qed.

Lemma split_double_keep (c x : N) (r : list N) :
  x <> c ->
  split_double c (x :: r) =
    match split_double c r with
    | p :: ps => (x :: p) :: ps
    | [] => [[x]]
    end.
Proof.
  intros Hx. apply N.eqb_neq in Hx. cbn [split_double]. rewrite Hx.
  destruct r; reflexivity.
Qed.

Lemma split_double_single (c y : N) (r : list N) :
  y <> c ->
  split_double c (c :: y :: r) =
    match split_double c (y :: r) with
    | p :: ps => (c :: p) :: ps
    | [] => [[c]]
    end.
Proof.
  intros Hy. apply N.eqb_neq in Hy.
  change (split_double c (c :: y :: r)) with
    (if (c =? c) && (y =? c) then [] :: split_double c r
     else match split_double c (y :: r) with
          | p :: ps => (c :: p) :: ps
          | [] => [[c]]
          end).
  rewrite Hy, andb_false_r. reflexivity.
Qed.

Lemma split_double_sep (c : N) (r : list N) :
  split_double c (c :: c :: r) = [] :: split_double c r.
Proof.
  change (split_double c (c :: c :: r)) with
    (if (c =? c) && (c =? c) then [] :: split_double c r
     else match split_double c (c :: r) with
          | p :: ps => (c :: p) :: ps
          | [] => [[c]]
          end).
  rewrite N.eqb_refl. reflexivity.
Qed.

(** A tight text followed by a blank line is the first paragraph. *)
Lemma split_double_tight (t : list N) :
  forall p, tight p = true ->
    split_double nl (p ++ nl :: nl :: t) = p :: split_double nl t.
Proof.
  enough (H : forall n p, (length p <= n)%nat -> tight p = true ->
                split_double nl (p ++ nl :: nl :: t) = p :: split_double nl t)
    by (intros p; apply (H (length p)); lia).
  induction n as [|n IH]; intros p Hlen Hp.
  - destruct p; [discriminate|cbn in Hlen; lia].
  - destruct p as [|x r]; [discriminate|].
    rewrite tight_cons in Hp. apply andb_true_iff in Hp as [Hx Hr].
    assert (Hx' : x <> nl)
      by (apply N.eqb_neq; destruct (x =? nl); [discriminate|reflexivity]).
    cbn [app]. rewrite split_double_keep by exact Hx'.
    destruct r as [|y r'].
    + cbn [app]. rewrite split_double_sep. reflexivity.
    + destruct (N.eqb_spec y nl) as [->|Hy].
      * destruct (tight_head _ Hr) as (z & r'' & -> & Hz).
        change ((nl :: z :: r'') ++ nl :: nl :: t)
          with (nl :: z :: r'' ++ nl :: nl :: t).
        rewrite split_double_single by exact Hz.
        change (z :: r'' ++ nl :: nl :: t) with ((z :: r'') ++ nl :: nl :: t).
        rewrite (IH (z :: r'')); [reflexivity|cbn in Hlen |- *; lia|exact Hr].
      * rewrite (IH (y :: r')); [reflexivity|cbn in Hlen |- *; lia|exact Hr].
Qed.

Lemma split_double_tight_last (p : list N) :
  tight p = true -> split_double nl p = [p].
Proof.
  enough (H : forall n p, (length p <= n)%nat -> tight p = true ->
                split_double nl p = [p])
    by (apply (H (length p)); lia).
  clear p. induction n as [|n IH]; intros p Hlen Hp.
  - destruct p; [discriminate|cbn in Hlen; lia].
  - destruct p as [|x r]; [discriminate|].
    rewrite tight_cons in Hp. apply andb_true_iff in Hp as [Hx Hr].
    assert (Hx' : x <> nl)
      by (apply N.eqb_neq; destruct (x =? nl); [discriminate|reflexivity]).
    rewrite split_double_keep by exact Hx'.
    destruct r as [|y r']; [reflexivity|].
    destruct (N.eqb_spec y nl) as [->|Hy].
    + destruct (tight_head _ Hr) as (z & r'' & -> & Hz).
      rewrite split_double_single by exact Hz.
      rewrite (IH (z :: r'')); [reflexivity|cbn in Hlen |- *; lia|exact Hr].
    + rewrite (IH (y :: r')); [reflexivity|cbn in Hlen |- *; lia|exact Hr].
Qed.

(** Splitting what was joined with blank lines gives the blocks back, when
    the blocks are tight. *)
Lemma split_double_join (blocks : list (list N)) :
  blocks <> [] ->
  List.Forall (fun b => tight b = true) blocks ->
  split_double nl (join [nl; nl] blocks) = blocks.
Proof.
  intros Hne H. induction H as [|b bs Hb Hbs IH]; [congruence|].
  destruct bs as [|b' bs']; [apply split_double_tight_last, Hb|].
  change (join [nl; nl] (b :: b' :: bs'))
    with (b ++ nl :: nl :: join [nl; nl] (b' :: bs')).
  rewrite split_double_tight by exact Hb. rewrite IH by discriminate. reflexivity.
Qed.

Lemma no_break_one_line (s : list N) : no_break s = true -> one_line s.
Proof.
  unfold no_break, one_line. intros H.
  apply List.Forall_forall. intros c Hc.
  apply (proj1 (forallb_forall _ _) H) in Hc.
  apply N.eqb_neq. destruct (c =? nl); [discriminate|reflexivity].
Qed.

Lemma one_line_app (s t : list N) : one_line s -> one_line t -> one_line (s ++ t).
Proof. intros Hs Ht. apply (proj2 (List.Forall_app _ _ _)). split; assumption. Qed.

Lemma one_line_strip (s : list N) : one_line s -> one_line (strip s).
Proof.
  unfold one_line. rewrite !List.Forall_forall. intros H c Hc.
  apply H, (strip_In _ _ Hc).
Qed.

Lemma quote_plus_one_line (s : list N) : one_line (quote_plus s).
Proof.
  unfold quote_plus, one_line.
  apply List.Forall_concat, List.Forall_map, List.Forall_forall. intros b _.
  unfold quote_byte. destruct (unreserved b) eqn:E.
  - constructor; [|constructor]. intros ->. discriminate.
  - destruct (b =? 32); [constructor; [discriminate|constructor]|].
    assert (H : forall d, hex_digit d <> nl).
    { intros d. unfold hex_digit, nl. destruct (d <? 10); lia. }
    repeat (constructor; [first [discriminate|apply H]|]). constructor.
Qed.

Lemma link_one_line (ex : list N) : one_line (google_exercise_link ex).
Proof.
  unfold google_exercise_link. apply one_line_app; [|apply quote_plus_one_line].
  apply no_break_one_line. vm_compute. reflexivity.
Qed.

Lemma cue_one_line (ex cue : list N) : FORM_CUES !! ex = Some cue -> one_line cue.
Proof.
  intros H. unfold FORM_CUES in H. apply elem_of_list_to_map_2 in H.
  apply list_elem_of_In in H. revert H.
  match goal with
  | |- In _ ?l -> _ =>
      assert (F : forallb (fun kv => no_break (snd kv)) l = true)
        by (vm_compute; reflexivity)
  end.
  intros H. apply no_break_one_line.
  apply (proj1 (forallb_forall _ _) F _ H).
Qed.

Lemma prescription_one_line (ex : list N) (pres : prescription) :
  EXERCISE_PRESCRIPTIONS !! ex = Some pres -> one_line (prescription_str pres).
Proof.
  intros H. unfold EXERCISE_PRESCRIPTIONS in H. apply elem_of_list_to_map_2 in H.
  apply list_elem_of_In in H. revert H.
  match goal with
  | |- In _ ?l -> _ =>
      assert (F : forallb (fun kv => no_break (prescription_str (snd kv))) l = true)
        by (vm_compute; reflexivity)
  end.
  intros H. apply no_break_one_line.
  apply (proj1 (forallb_forall _ _) F _ H).
Qed.

Ltac literal_line := apply no_break_one_line; vm_compute; reflexivity.

Lemma target_fragment_one_line (label : list N) (v : option cell) :
  one_line label -> (forall c, v = Some c -> one_line (cell_str c)) ->
  one_line (target_fragment label v).
Proof.
  intros Hl Hv. unfold target_fragment. destruct v as [c|]; [|constructor].
  destruct (truthy (cell_str c)); [|constructor].
  apply one_line_app; [exact Hl|apply Hv; reflexivity].
Qed.

(** Literals are replaced through equations checked by evaluation. *)
Ltac rewrite_lits :=
  repeat match goal with
  | |- context [u ?s] =>
      let v := eval vm_compute in (u s) in
      let E := fresh "E" in
      assert (E : u s = v) by (vm_compute; reflexivity);
      rewrite !E; clear E
  end.

(** An entry rendered from a row is its lines joined by line breaks. *)
Lemma render_row_lines (r : PlanRow) : render_row r = join [nl] (entry_lines r).
Proof.
  rewrite render_row_parts. unfold entry_lines, entry_head, cue_line, prescription_line.
  generalize (strip (cell_str (Exercise r))). intros ex.
  generalize (google_exercise_link ex). intros link.
  rewrite_lits.
  destruct (FORM_CUES !! ex) as [cue|]; [destruct (truthy cue)|];
    destruct (EXERCISE_PRESCRIPTIONS !! ex) as [pres|];
    cbn [join app]; rewrite <- ?app_assoc; cbn [app];
    rewrite ?app_nil_r; reflexivity.
Qed.

Lemma entry_lines_plain (r : PlanRow) :
  plain_row r ->
  List.Forall (fun l => l <> [] /\ one_line l) (entry_lines r).
Proof.
  intros (Hex & Hp & Hs & Ht). unfold entry_lines.
  set (ex := strip (cell_str (Exercise r))).
  assert (Hex' : one_line ex) by apply one_line_strip, Hex.
  apply (proj2 (List.Forall_app _ _ _)). split.
  { constructor.
    { split; [rewrite_lits; discriminate|].
      apply one_line_app; [literal_line|].
      apply one_line_app; [exact Hex'|literal_line]. }
    constructor.
    { split; [rewrite_lits; discriminate|].
      apply one_line_app; [literal_line|apply link_one_line]. }
    constructor; [|constructor].
    split; [rewrite_lits; discriminate|].
    apply one_line_app; [literal_line|].
    apply one_line_app; [exact Hp|].
    apply one_line_app; apply target_fragment_one_line;
      (literal_line || assumption). }
  apply (proj2 (List.Forall_app _ _ _)). split.
  - destruct (FORM_CUES !! ex) as [cue|] eqn:E; [|constructor].
    destruct (truthy cue); constructor; [|constructor].
    split; [rewrite_lits; discriminate|].
    apply one_line_app; [literal_line|apply (cue_one_line ex), E].
  - destruct (EXERCISE_PRESCRIPTIONS !! ex) as [pres|] eqn:E; constructor; [|constructor].
    split; [rewrite_lits; discriminate|].
    apply one_line_app; [literal_line|apply (prescription_one_line ex), E].
Qed.

Lemma render_row_tight (r : PlanRow) : plain_row r -> tight (render_row r) = true.
Proof.
  intros H. rewrite render_row_lines. apply tight_join.
  - unfold entry_lines. discriminate.
  - eapply List.Forall_impl; [|apply entry_lines_plain, H].
    intros l [Hne Hl]. apply tight_one_line; assumption.
Qed.

Lemma fixed_block_tight (title unit : list N) (t : gmap (list N) (list (list N)))
    (typ : list N) :
  forallb (fun c =>
    tight (title ++ join [nl]
             (List.map (fun w => u "• " ++ w ++ u "\n  " ++ google_ref_link w unit)
                       (table_for t c)))) categories = true ->
  tight (title ++ join [nl]
           (List.map (fun w => u "• " ++ w ++ u "\n  " ++ google_ref_link w unit)
                     (table_for t (classify_day typ)))) = true.
Proof.
  intros H. apply (proj1 (forallb_forall _ _) H), classify_day_category.
Qed.

Lemma cardio_lines_tight :
  List.Forall (fun l => tight l = true) (List.map render_cardio cardio_exercises).
Proof.
  assert (H : forallb tight (List.map render_cardio cardio_exercises) = true)
    by (vm_compute; reflexivity).
  apply List.Forall_forall. intros l Hl.
  apply (proj1 (forallb_forall _ _) H), Hl.
Qed.

Lemma main_lines_tight (df : DataFrame) (day : list N) :
  List.Forall plain_row (List.filter (day_is day) df) ->
  List.Forall (fun l => tight l = true) (main_lines df day).
Proof.
  intros H. unfold main_lines.
  destruct (bool_decide (classify_day day = u "cardio")); [apply cardio_lines_tight|].
  apply List.Forall_map. eapply List.Forall_impl; [|exact H].
  intros r Hr. apply render_row_tight, Hr.
Qed.

(** The message is its five blocks joined by blank lines. *)
Lemma build_message_blocks (df : DataFrame) (day : list N) :
  build_message_for_day df day = join [nl; nl] (message_blocks df day).
Proof.
  unfold build_message_for_day, message_blocks. cbv zeta.
  assert (E1 : u "*\n\n" = u "*" ++ [nl; nl]) by (vm_compute; reflexivity).
  assert (E2 : u "\n\n" = [nl; nl]) by (vm_compute; reflexivity).
  rewrite E1, !E2. clear E1 E2.
  cbn [join]. rewrite <- !app_assoc. reflexivity.
Qed.

Lemma message_blocks_tight (df : DataFrame) (day : list N) :
  one_line day ->
  List.Forall plain_row (List.filter (day_is day) df) ->
  main_lines df day <> [] ->
  List.Forall (fun b => tight b = true) (message_blocks df day).
Proof.
  intros Hday Hrows Hmain. unfold message_blocks. cbv zeta.
  assert (En : u "\n" = [nl]) by (vm_compute; reflexivity).
  rewrite !En. clear En.
  constructor.
  { apply tight_one_line; [rewrite_lits; discriminate|].
    apply one_line_app; [literal_line|].
    apply one_line_app; [exact Hday|literal_line]. }
  constructor.
  { apply fixed_block_tight. vm_compute. reflexivity. }
  constructor.
  { assert (E : u "🏋️ *Main Workout*\n" = u "🏋️ *Main Workout*" ++ [nl])
      by (vm_compute; reflexivity).
    rewrite E, <- app_assoc. clear E. cbn [app].
    apply tight_app_nl.
    - apply tight_join; [exact Hmain|apply main_lines_tight, Hrows].
    - vm_compute. reflexivity. }
  constructor.
  { apply fixed_block_tight. vm_compute. reflexivity. }
  constructor; [|constructor].
  vm_compute. reflexivity.
Qed.

(** X16. For a day label and plan cells without line breaks, and a main
    block with at least one entry, the rendered message is five paragraphs
    separated by blank lines: the date line, the warm-up block, the main
    workout block, the cool-down block and the closing line, none of which
    holds a blank line or ends in a line break.  When each of them fits
    under the limit with its separator, the chunker cuts the message only
    between these blocks: every part is a group of consecutive whole
    blocks. *)
Theorem message_paragraphs (df : DataFrame) (day : list N) :
  one_line day ->
  List.Forall plain_row (List.filter (day_is day) df) ->
  main_lines df day <> [] ->
  split_double nl (build_message_for_day df day) = message_blocks df day /\
  List.Forall (fun b => tight b = true) (message_blocks df day) /\
  forall L : Z,
    List.Forall (fun b => (len b + 2 <= L)%Z) (message_blocks df day) ->
    exists groups,
      concat groups = message_blocks df day /\
      List.Forall (fun g => g <> [] /\ (len (join [nl; nl] g) + 2 <= L)%Z) groups /\
      chunk_bodies (build_message_for_day df day) L
      = List.map (fun g => rstrip (join [nl; nl] g)) groups.
Proof.
  intros Hday Hrows Hmain.
  pose proof (message_blocks_tight df day Hday Hrows Hmain) as Ht.
  assert (E : split_double nl (build_message_for_day df day) = message_blocks df day).
  { rewrite build_message_blocks. apply split_double_join; [|exact Ht].
    unfold message_blocks. discriminate. }
  split; [exact E|]. split; [exact Ht|].
  intros L HL.
  assert (H0 : (len (glue []) <= L)%Z).
  { revert HL. unfold message_blocks. cbv zeta. intros HL.
    apply List.Forall_inv in HL.
    match type of HL with (len ?b + 2 <= _)%Z => pose proof (len_nonneg b) end.
    change (len (glue [])) with 0%Z. lia. }
  destruct (pack_paras_groups L (message_blocks df day) [] HL H0)
    as (groups & Hc & Hg & Ep).
  exists groups. split; [exact Hc|]. split.
  - eapply List.Forall_impl; [|exact Hg]. intros g [Hne Hlen].
    split; [exact Hne|]. rewrite glue_join, len_app in Hlen by exact Hne.
    exact Hlen.
  - unfold chunk_bodies. rewrite E. change (@nil N) with (glue []). rewrite Ep.
    apply List.map_ext_in. intros g Hin.
    apply (proj1 (List.Forall_forall _ _) Hg) in Hin as [Hne _].
    rewrite glue_join by exact Hne. unfold nn.
    change (join [nl; nl] g ++ [nl; nl]) with (join [nl; nl] g ++ [nl] ++ [nl]).
    rewrite app_assoc, !rstrip_newline. reflexivity.
Qed.

Lemma message_paragraphs_witness :
  split_double nl (build_message_for_day five_day_plan (u "Pull Day"))
  = message_blocks five_day_plan (u "Pull Day") /\
  List.Forall (fun b => tight b = true) (message_blocks five_day_plan (u "Pull Day")) /\
  forall L : Z,
    List.Forall (fun b => (len b + 2 <= L)%Z) (message_blocks five_day_plan (u "Pull Day")) ->
    exists groups,
      concat groups = message_blocks five_day_plan (u "Pull Day") /\
      List.Forall (fun g => g <> [] /\ (len (join [nl; nl] g) + 2 <= L)%Z) groups /\
      chunk_bodies (build_message_for_day five_day_plan (u "Pull Day")) L
      = List.map (fun g => rstrip (join [nl; nl] g)) groups.
Proof.
  apply (message_paragraphs five_day_plan (u "Pull Day")).
  - apply no_break_one_line. vm_compute. reflexivity.
  - vm_compute. constructor; [|constructor].
    repeat split; try (intros c Hc; discriminate Hc);
      repeat (constructor; [discriminate|]); constructor.
  - vm_compute. discriminate.
Defined.

(** ** The days of the plan and the main block *)

Lemma ordered_unique_days_In (df : DataFrame) (d : list N) :
  In d (ordered_unique_days df) <-> exists r, In r df /\ Day r = Text d.
Proof.
  assert (E : ordered_unique_days df = first_seen (dropna (List.map Day df))).
  { unfold ordered_unique_days. rewrite unique_from_first_seen.
    rewrite <- (List.filter_ext (fun _ => true)).
    - induction (first_seen _) as [|x l IH]; [reflexivity|].
      cbn [List.filter]. rewrite IH. reflexivity.
    - intros x. rewrite bool_decide_eq_false_2 by apply not_elem_of_empty.
      reflexivity. }
  rewrite E, first_seen_In, dropna_In, List.in_map_iff.
  split; intros (r & H1 & H2); exists r; auto.
Qed.

Lemma day_rows_In (df : DataFrame) (day : list N) (r : PlanRow) :
  In r (List.filter (day_is day) df) <-> In r df /\ Day r = Text day.
Proof.
  rewrite List.filter_In. unfold day_is. split; intros [Hin Hd]; (split; [exact Hin|]).
  - destruct (Day r) as [|s]; [discriminate|].
    apply bool_decide_eq_true_1 in Hd. subst s. reflexivity.
  - rewrite Hd. apply bool_decide_eq_true_2. reflexivity.
Qed.

Lemma main_lines_plan_day (df : DataFrame) (day : list N) :
  In day (ordered_unique_days df) -> main_lines df day <> [].
Proof.
  intros H. apply ordered_unique_days_In in H as (r & Hr & Hd).
  unfold main_lines. destruct (bool_decide _).
  - unfold cardio_exercises. discriminate.
  - intros E. apply List.map_eq_nil in E.
    assert (Hin : In r (List.filter (day_is day) df))
      by (apply day_rows_In; split; assumption).
    rewrite E in Hin. destruct Hin.
Qed.

Lemma main_lines_other_day (df : DataFrame) (day : list N) :
  ~ In day (ordered_unique_days df) -> classify_day day <> u "cardio" ->
  main_lines df day = [].
Proof.
  intros Hout Hc. unfold main_lines. rewrite bool_decide_eq_false_2 by exact Hc.
  destruct (List.filter (day_is day) df) as [|r l] eqn:E; [reflexivity|].
  exfalso. apply Hout, ordered_unique_days_In. exists r.
  apply day_rows_In. rewrite E. left. reflexivity.
Qed.

(** X17. The main block of a day that is not a cardio day has an entry
    exactly when the day is one of the plan's days, and then one entry per
    row of that day; a cardio day always has its three fixed entries.  So
    every day of the plan gets a main block that is not empty, and a label
    that is not in the plan (which only a rest override or a caller of the
    builder can supply) gets an empty one unless it reads as cardio. *)
Theorem plan_day_has_entries (df : DataFrame) (day : list N) :
  (classify_day day <> u "cardio" ->
     length (main_lines df day) = length (List.filter (day_is day) df) /\
     (main_lines df day <> [] <-> In day (ordered_unique_days df))) /\
  (classify_day day = u "cardio" -> length (main_lines df day) = 3%nat) /\
  (In day (ordered_unique_days df) -> main_lines df day <> []).
Proof.
  split; [|split].
  - intros Hc. split.
    + unfold main_lines. rewrite bool_decide_eq_false_2 by exact Hc.
      apply List.length_map.
    + split; [|apply main_lines_plan_day].
      intros Hne. destruct (decide (day ∈ ordered_unique_days df)) as [Hin|Hout];
        [apply list_elem_of_In, Hin|].
      rewrite list_elem_of_In in Hout.
      destruct Hne. apply main_lines_other_day; assumption.
  - intros Hc. unfold main_lines. rewrite bool_decide_eq_true_2 by exact Hc.
    reflexivity.
  - apply main_lines_plan_day.
Qed.

Lemma plain_plan_day (df : DataFrame) (day : list N) :
  plain_plan df -> In day (ordered_unique_days df) ->
  one_line day /\ List.Forall plain_row (List.filter (day_is day) df).
Proof.
  intros Hp Hin. unfold plain_plan in Hp. rewrite List.Forall_forall in Hp. split.
  - apply ordered_unique_days_In in Hin as (r & Hr & Hd).
    destruct (Hp r Hr) as [H _]. rewrite Hd in H. exact H.
  - apply List.Forall_forall. intros r Hr. apply day_rows_In in Hr as [Hr _].
    apply (Hp r Hr).
Qed.

(** X18. The scheduled run on a plan that has at least one day and whose
    cells hold no line break, with no rest override pending: on every
    weekday the selector returns a day of the plan and leaves the state file
    alone, and the message built for that day has a non-empty main block and
    is exactly five paragraphs separated by blank lines. *)
Theorem scheduled_message_paragraphs (df : DataFrame) (wd : nat) (file : option RunState) :
  ordered_unique_days df <> [] ->
  plain_plan df ->
  no_override file ->
  exists day,
    pick_day_for_today (ordered_unique_days df) wd file = (Ok day, file) /\
    In day (ordered_unique_days df) /\
    main_lines df day <> [] /\
    split_double nl (build_message_for_day df day) = message_blocks df day /\
    length (split_double nl (build_message_for_day df day)) = 5%nat.
Proof.
  intros Hne Hp Hf.
  destruct (pick_day_by_index (ordered_unique_days df) wd Hne) as [day Hd].
  exists day.
  assert (Hin : In day (ordered_unique_days df)).
  { apply list_elem_of_In. eapply list_elem_of_lookup_2. exact Hd. }
  destruct (plain_plan_day df day Hp Hin) as [Hday Hrows].
  pose proof (main_lines_plan_day df day Hin) as Hmain.
  assert (E : split_double nl (build_message_for_day df day) = message_blocks df day).
  { rewrite build_message_blocks. apply split_double_join.
    - unfold message_blocks. discriminate.
    - apply message_blocks_tight; assumption. }
  split; [apply pick_day_default; [exact Hd|exact Hf]|].
  split; [exact Hin|]. split; [exact Hmain|]. split; [exact E|].
  rewrite E. reflexivity.
Qed.

Lemma scheduled_message_paragraphs_witness :
  exists day,
    pick_day_for_today (ordered_unique_days five_day_plan) 1 None = (Ok day, None) /\
    In day (ordered_unique_days five_day_plan) /\
    main_lines five_day_plan day <> [] /\
    split_double nl (build_message_for_day five_day_plan day)
    = message_blocks five_day_plan day /\
    length (split_double nl (build_message_for_day five_day_plan day)) = 5%nat.
Proof.
  apply (scheduled_message_paragraphs five_day_plan 1 None).
  - vm_compute. discriminate.
  - unfold plain_plan, five_day_plan, five_days. cbn [List.map].
    repeat (constructor;
            [repeat split; cbn [Day Exercise Primary_Target Secondary_Target
                                  Tertiary_Target cell_str];
             try (intros c Hc; discriminate Hc);
             apply no_break_one_line; vm_compute; reflexivity|]).
    constructor.
  - exact I.
Defined.

(** ** The listing of the keys *)

Lemma alias_rows_numbered (ds : list (list N)) (a d : list N) :
  In (a, d) (rows (alias_loop ds)) <->
  exists c k, In c categories /\ a = c ++ str_of_nat (S k) /\
              cat_days c ds !! k = Some d.
Proof.
  revert a d. induction ds as [|x ds IH] using rev_ind; intros a d.
  - change (rows (alias_loop [])) with (@nil (list N * list N)).
    split; [intros []|]. intros (c & k & _ & _ & H).
    change (cat_days c []) with (@nil (list N)) in H.
    rewrite lookup_nil in H. discriminate.
  - rewrite alias_loop_snoc, (alias_step_rows ds x _ (alias_loop_inv ds)).
    rewrite List.in_app_iff, IH. cbn [In]. split.
    + intros [(c & k & Hc & -> & Hk)|[E|[]]].
      * exists c, k. split; [exact Hc|]. split; [reflexivity|].
        rewrite cat_days_snoc. apply lookup_app_l_Some, Hk.
      * injection E as Ea Ed. subst a d.
        exists (classify_day x), (length (cat_days (classify_day x) ds)).
        split; [apply classify_day_category|]. split; [reflexivity|].
        rewrite cat_days_snoc_same. apply list_lookup_middle. reflexivity.
    + intros (c & k & Hc & -> & Hk). rewrite cat_days_snoc in Hk.
      apply lookup_app_Some in Hk as [Hk|[Hlen Hk]].
      * left. exists c, k. auto.
      * right. left.
        destruct (bool_decide (classify_day x = c)) eqn:Eb;
          [|rewrite lookup_nil in Hk; discriminate].
        apply bool_decide_eq_true_1 in Eb. subst c.
        apply list_lookup_singleton_Some in Hk as [Hz Ed]. subst d.
        assert (Ek : k = length (cat_days (classify_day x) ds)) by lia.
        rewrite Ek. reflexivity.
Qed.

Lemma simple_rows_In (m : gmap (list N) (list N)) (l : list (list N)) (key d : list N) :
  In (key, d)
     (flat_map (fun simple => match m !! simple with
                              | Some d => [(simple, d)]
                              | None => []
                              end) l)
  <-> In key l /\ m !! key = Some d.
Proof.
  rewrite List.in_flat_map. split.
  - intros (s & Hs & Hin). destruct (m !! s) as [d'|] eqn:E; [|destruct Hin].
    destruct Hin as [Hin|[]]. injection Hin as <- <-. auto.
  - intros [Hk Hm]. exists key. split; [exact Hk|]. rewrite Hm. left. reflexivity.
Qed.

Lemma simple_rows_nodup (m : gmap (list N) (list N)) (l : list (list N)) :
  List.NoDup l ->
  List.NoDup (List.map fst
    (flat_map (fun simple => match m !! simple with
                             | Some d => [(simple, d)]
                             | None => []
                             end) l)).
Proof.
  intros H. induction H as [|s l Hs Hl IH]; [constructor|].
  cbn [flat_map]. destruct (m !! s) as [d|]; [|exact IH].
  cbn [app List.map fst]. constructor; [|exact IH].
  intros Hin. apply List.in_map_iff in Hin as ([k d'] & E & Hin).
  cbn [fst] in E. subst k. apply simple_rows_In in Hin. apply Hs, Hin.
Qed.

Lemma simple_aliases_categories (key : list N) :
  In key simple_aliases <-> In key categories /\ key <> u "general".
Proof.
  unfold simple_aliases, categories. eval_lits. cbn [In]. split.
  - intros [<-|[<-|[<-|[<-|[]]]]]; (split; [auto 10|discriminate]).
  - intros [[<-|[<-|[<-|[<-|[<-|[]]]]]] Hne]; auto 10; congruence.
Qed.

Lemma numbered_not_general (c : list N) (k : nat) :
  In c categories -> c ++ str_of_nat (S k) <> u "general".
Proof.
  intros Hc. apply bare_not_numbered; [exact Hc| |apply str_of_nat_nonempty].
  unfold categories. cbn [In]. auto 10.
Qed.

Lemma listed_keys_spec (df : DataFrame) (key d : list N) :
  In (key, d) (listed_keys df) <->
  fst (build_alias_map df) !! key = Some d /\ key <> u "general".
Proof.
  unfold listed_keys, build_alias_map. cbn [fst snd].
  set (ds := ordered_unique_days df).
  pose proof (alias_loop_inv ds) as [_ Hlook _].
  rewrite List.in_app_iff, alias_rows_numbered, simple_rows_In,
    simple_aliases_categories. split.
  - intros [(c & k & Hc & -> & Hk)|[[Hc Hne] Hm]].
    + split; [|apply numbered_not_general, Hc].
      rewrite alias_lookup_numbered by exact Hc. exact Hk.
    + split; assumption.
  - intros [Hm Hne]. pose proof (proj1 (Hlook key d) Hm) as [Hnum|[Hc Hhd]].
    + left. exact Hnum.
    + right. split; [split; assumption|exact Hm].
Qed.

Lemma listed_keys_fit (df : DataFrame) (key d : list N) :
  In (key, d) (listed_keys df) ->
  (length key <= listing_width (snd (build_alias_map df)))%nat.
Proof.
  assert (Hrows : forall a d', In (a, d') (snd (build_alias_map df)) ->
            (length a <= listing_width (snd (build_alias_map df)))%nat).
  { intros a d' Hin. unfold listing_width.
    destruct (snd (build_alias_map df)) as [|r0 rs] eqn:E; [destruct Hin|].
    rewrite <- E in *. clear E.
    pose proof (proj1 (List.list_max_le
                  (List.map (fun r => length (fst r)) (snd (build_alias_map df)))
                  _) (Nat.le_refl _)) as Hall.
    rewrite List.Forall_forall in Hall. apply Hall.
    apply List.in_map_iff. exists (a, d'). split; [reflexivity|exact Hin]. }
  unfold listed_keys. rewrite List.in_app_iff, simple_rows_In.
  intros [Hin|[Hs Hm]]; [apply (Hrows key d), Hin|].
  apply simple_aliases_categories in Hs as [Hc _].
  unfold build_alias_map in Hm. cbn [fst] in Hm.
  rewrite alias_lookup_bare in Hm by exact Hc.
  assert (Hin : In (key ++ str_of_nat 1, d) (snd (build_alias_map df))).
  { unfold build_alias_map. cbn [snd]. apply alias_rows_numbered.
    exists key, 0%nat. split; [exact Hc|]. split; [reflexivity|].
    destruct (cat_days key (ordered_unique_days df)); [discriminate|exact Hm]. }
  apply Hrows in Hin. rewrite List.length_app in Hin. lia.
Qed.

(** X19. [--list-keys] prints a heading and then one line per listed key:
    the numbered alias of every day in plan order, then the bare names
    [pull], [push], [legs] and [cardio] that are in the alias map.  Every
    key is padded to the same width, so the arrows are aligned; no key is
    listed twice; and a key is listed exactly when the alias map has it and
    it is not [general]: the bare key [general] is in the map as soon as
    the plan has a day of no other category, and [--send-key] accepts it,
    but the listing never shows it. *)
Theorem list_keys_listing (df : DataFrame) :
  cmd_list_keys df
  = u "Available aliases:"
    :: List.map (fun r => key_line (listing_width (snd (build_alias_map df)))
                                   (fst r) (snd r))
                (listed_keys df) /\
  (forall key d, In (key, d) (listed_keys df) <->
     fst (build_alias_map df) !! key = Some d /\ key <> u "general") /\
  List.NoDup (List.map fst (listed_keys df)) /\
  List.Forall (fun r => length (ljust (listing_width (snd (build_alias_map df))) (fst r))
                        = listing_width (snd (build_alias_map df)))
              (listed_keys df) /\
  (forall d, In d (ordered_unique_days df) -> classify_day d = u "general" ->
     (exists d0, fst (build_alias_map df) !! u "general" = Some d0) /\
     forall d', ~ In (u "general", d') (listed_keys df)).
Proof.
  split; [|split; [|split; [|split]]].
  - unfold cmd_list_keys, listed_keys.
    destruct (build_alias_map df) as [alias_map rows0]. cbn [fst snd app].
    f_equal. rewrite List.map_app. f_equal.
    unfold simple_aliases. cbn [flat_map].
    repeat match goal with |- context [alias_map !! ?k] => destruct (alias_map !! k) end;
      reflexivity.
  - apply listed_keys_spec.
  - unfold listed_keys. rewrite List.map_app.
    apply NoDup_ListNoDup, NoDup_app. split; [|split].
    + apply NoDup_ListNoDup.
      apply (proj2 (proj2 (alias_rows_inv (ordered_unique_days df)))).
    + intros a Ha Hb. apply list_elem_of_In in Ha, Hb.
      apply List.in_map_iff in Ha as ([a' d1] & E1 & Ha).
      apply List.in_map_iff in Hb as ([b' d2] & E2 & Hb).
      cbn [fst] in E1, E2. subst a' b'.
      unfold build_alias_map in Ha. cbn [snd] in Ha.
      apply alias_rows_numbered in Ha as (c & k & Hc & -> & _).
      apply simple_rows_In in Hb as [Hb _].
      apply simple_aliases_categories in Hb as [Hb _].
      exact (bare_not_numbered c (c ++ str_of_nat (S k)) (str_of_nat (S k))
               Hc Hb (str_of_nat_nonempty _) eq_refl).
    + apply NoDup_ListNoDup, simple_rows_nodup.
      unfold simple_aliases. eval_lits.
      repeat (constructor; [cbn [In]; intuition discriminate|]). constructor.
  - apply List.Forall_forall. intros [key d] Hin. cbn [fst].
    apply listed_keys_fit in Hin. unfold ljust.
    rewrite List.length_app, List.repeat_length. lia.
  - intros d Hin Hg. split.
    + unfold build_alias_map. cbn [fst].
      rewrite alias_lookup_bare by (unfold categories; cbn [In]; auto 10).
      assert (Hd : In d (cat_days (u "general") (ordered_unique_days df))).
      { apply List.filter_In. split; [exact Hin|].
        apply bool_decide_eq_true_2, Hg. }
      destruct (cat_days _ _) as [|d0 l]; [destruct Hd|]. exists d0. reflexivity.
    + intros d' Hl. apply listed_keys_spec in Hl as [_ Hne]. apply Hne. reflexivity.
Qed.

(** A plan with a core day: [general] resolves, and is not in the listing. *)
Example general_key_unlisted :
  fst (build_alias_map five_day_plan) !! u "general" = Some (u "Core Day") /\
  List.map fst (listed_keys five_day_plan)
  = [u "pull1"; u "push1"; u "legs1"; u "cardio1"; u "general1";
     u "pull"; u "push"; u "legs"; u "cardio"].
Proof. split; vm_compute; reflexivity. Qed.

(** ** Message chunker: the size of the parts as returned *)

Lemma part_header_len (i total : nat) : (12 <= len (part_header i total))%Z.
Proof.
  unfold part_header. rewrite !len_app.
  assert (H : forall n, (1 <= len (str_of_nat n))%Z).
  { intros n. pose proof (str_of_nat_nonempty n) as Hne. unfold len.
    destruct (str_of_nat n); [congruence|cbn [length]; lia]. }
  pose proof (H (i + 1)%nat). pose proof (H total).
  assert (E1 : len (u "(Part ") = 6%Z) by (vm_compute; reflexivity).
  assert (E2 : len (u "/") = 1%Z) by (vm_compute; reflexivity).
  assert (E3 : len (u ")\n\n") = 3%Z) by (vm_compute; reflexivity).
  rewrite E1, E2, E3. lia.
Qed.

(** C1 on the code: the size bound is kept on the text of a part and lost
    on the part as returned.  Whatever the limit, the text of a part is
    within the limit unless it is a single line of the blob that is itself
    longer than the limit (with trailing whitespace removed).  When more
    than one part is made, the part returned is the header [(Part i/total)],
    a blank line and that text; the header and blank line take at least 12
    characters and are not counted against the limit, so a part whose text
    comes within 11 characters of the limit is returned longer than the
    limit, although no line of the blob is. *)
Theorem chunk_header_over_limit (body : str) (L : Z) (i : nat) (pt : str) :
  chunk_bodies body L !! i = Some pt ->
  let n := length (chunk_bodies body L) in
  bounded_or_long_line L (split_double nl body) pt /\
  chunk_message body L !! i =
    Some (if (1 <? n)%nat then part_header i n ++ pt else pt) /\
  (12 <= len (part_header i n))%Z /\
  ((1 < n)%nat -> (L - 12 < len pt)%Z ->
   exists returned,
     chunk_message body L !! i = Some returned /\
     returned = part_header i n ++ pt /\
     (L < len returned)%Z).
Proof.
  intros Hi n.
  assert (E : chunk_message body L !! i =
              Some (if (1 <? n)%nat then part_header i n ++ pt else pt))
    by (apply add_headers_lookup, Hi).
  split; [|split; [exact E|split; [apply part_header_len|]]].
  - pose proof (pack_paras_bounded L (split_double nl body) (split_double nl body) []
                  (fun p H => H) (or_intror eq_refl)) as Hall.
    rewrite Forall_forall in Hall. apply Hall.
    eapply list_elem_of_lookup_2. exact Hi.
  - intros Hn Hlen. exists (part_header i n ++ pt).
    split; [|split; [reflexivity|]].
    + rewrite E. apply Nat.ltb_lt in Hn. rewrite Hn. reflexivity.
    + rewrite len_app. pose proof (part_header_len i n). lia.
Qed.

(** Paragraphs of 1498 and 10 characters, limit 1500: no line is longer
    than the limit, and the first part returned is. *)
Lemma chunk_header_over_limit_witness :
  lines_within two_paragraphs 1500 = true /\
  exists returned,
    chunk_message two_paragraphs 1500 !! 0%nat = Some returned /\
    returned = part_header 0 (length (chunk_bodies two_paragraphs 1500))
               ++ repeat 97 1498 /\
    (1500 < len returned)%Z.
Proof.
  split; [vm_compute; reflexivity|].
  destruct (chunk_header_over_limit two_paragraphs 1500 0 (repeat 97 1498))
    as (_ & _ & _ & H).
  - vm_compute. reflexivity.
  - apply H.
    + vm_compute. lia.
    + vm_compute. reflexivity.
Defined.

(** ** Cardio days *)

(** C7, as the code has it: on a day classified as cardio the main-workout
    block of the message is made of exactly the three fixed entries,
    Kettlebell Swings, DB Thrusters and Jump Rope, whatever the table holds,
    so the message is the one rendered from the empty table and no row of
    the plan appears in it.  Each fixed entry is the name line, the link
    line, the form-cue line and the prescription line: the lines an entry
    rendered from a row begins and ends with, without the line of targets
    that every entry rendered from a row has between them. *)
Theorem cardio_day_fixed_entries (df : DataFrame) (day : str) :
  classify_day day = u "cardio" ->
  main_lines df day =
    [u "- *Kettlebell Swings*\n  https://www.google.com/search?q=site%3Amusclewiki.com+Kettlebell+Swings\n  Form Cue: Hinge; snap glutes; don’t squat.\n  Prescription: EMOM × 10 reps/min | Rest: balance of min";
     u "- *DB Thrusters*\n  https://www.google.com/search?q=site%3Amusclewiki.com+DB+Thrusters\n  Form Cue: Full squat then press overhead.\n  Prescription: EMOM × 8 reps/min | Rest: balance of min";
     u "- *Jump Rope*\n  https://www.google.com/search?q=site%3Amusclewiki.com+Jump+Rope\n  Form Cue: Light bounce; upright.\n  Prescription: EMOM × 20 skips/min | Rest: balance of min"] /\
  main_lines df day = List.map render_cardio cardio_exercises /\
  Forall (fun ex => render_cardio ex = entry_head ex ++ cue_line ex ++ prescription_line ex)
         cardio_exercises /\
  (forall r,
     render_row r =
       entry_head (strip (cell_str (Exercise r)))
       ++ u "\n  Primary: " ++ cell_str (Primary_Target r)
       ++ target_fragment (u " | Secondary: ") (Secondary_Target r)
       ++ target_fragment (u " | Tertiary: ") (Tertiary_Target r)
       ++ cue_line (strip (cell_str (Exercise r)))
       ++ prescription_line (strip (cell_str (Exercise r)))) /\
  build_message_for_day df day = build_message_for_day [] day /\
  Forall (fun e =>
            tl (sub_line_labels e) = [u "  https"; u "  Form Cue"; u "  Prescription"] /\
            contains (u "Primary: ") e = false)
         (main_lines df day) /\
  (forall r, contains (u "Primary: ") (render_row r) = true) /\
  build_message_for_day df day =
    u "📅 *" ++ day ++ u "*\n\n"
    ++ u "🔥 *Warm-up*\n"
    ++ join (u "\n")
         (List.map (fun w => u "• " ++ w ++ u "\n  " ++ google_ref_link w (u "warm up"))
                   (table_for WARMUPS (u "cardio")))
    ++ u "\n\n"
    ++ u "🏋️ *Main Workout*\n"
    ++ join (u "\n") (List.map render_cardio cardio_exercises) ++ u "\n\n"
    ++ u "🧊 *Cool-down*\n"
    ++ join (u "\n")
         (List.map (fun c => u "• " ++ c ++ u "\n  " ++ google_ref_link c (u "stretch"))
                   (table_for COOLDOWNS (u "cardio")))
    ++ u "\n\n"
    ++ u "Reply *DONE* when finished 💪" /\
  (one_line day ->
   length (split_double nl (build_message_for_day df day)) = 5%nat /\
   split_double nl (build_message_for_day df day) !! 2%nat
   = Some (u "🏋️ *Main Workout*\n"
           ++ join (u "\n") (List.map render_cardio cardio_exercises))).
Proof.
  intros H.
  pose proof (main_lines_cardio df day H) as Hdf.
  pose proof (main_lines_cardio [] day H) as Hnil.
  assert (M : build_message_for_day df day = build_message_for_day [] day)
    by (unfold build_message_for_day; rewrite Hdf, Hnil; reflexivity).
  split; [rewrite Hdf; vm_compute; reflexivity|].
  split; [exact Hdf|]. split; [exact render_cardio_parts|].
  split; [exact render_row_parts|]. split; [exact M|].
  split.
  { rewrite Hdf.
    assert (T : forallb (fun e =>
                  bool_decide (tl (sub_line_labels e)
                               = [u "  https"; u "  Form Cue"; u "  Prescription"])
                  && negb (contains (u "Primary: ") e))
                  (List.map render_cardio cardio_exercises) = true)
      by (vm_compute; reflexivity).
    apply List.Forall_forall. intros e He.
    apply (proj1 (forallb_forall _ _) T) in He.
    apply andb_true_iff in He as [He1 He2].
    apply bool_decide_eq_true_1 in He1. split; [exact He1|].
    destruct (contains _ e); [discriminate He2|reflexivity]. }
  split; [exact render_row_primary|]. split.
  { unfold build_message_for_day. rewrite H, Hdf. reflexivity. }
  intros Hday.
  assert (E : split_double nl (build_message_for_day df day) = message_blocks [] day).
  { rewrite M, build_message_blocks. apply split_double_join.
    - unfold message_blocks. discriminate.
    - apply message_blocks_tight; [exact Hday|constructor|].
      rewrite Hnil. unfold cardio_exercises. discriminate. }
  rewrite E. split; [reflexivity|].
  unfold message_blocks. rewrite Hnil. reflexivity.
Qed.

(** A cardio day with two rows in the table, one of them for an exercise of
    the fixed list. *)
Lemma cardio_day_fixed_entries_witness :
  length (main_lines cardio_plan (u "Cardio HIIT")) = 3%nat /\
  build_message_for_day cardio_plan (u "Cardio HIIT")
  = build_message_for_day [] (u "Cardio HIIT") /\
  split_double nl (build_message_for_day cardio_plan (u "Cardio HIIT")) !! 2%nat
  = Some (u "🏋️ *Main Workout*\n"
          ++ join (u "\n") (List.map render_cardio cardio_exercises)).
Proof.
  destruct (cardio_day_fixed_entries cardio_plan (u "Cardio HIIT"))
    as (E & _ & _ & _ & M & _ & _ & _ & P).
  - vm_compute. reflexivity.
  - split; [rewrite E; reflexivity|]. split; [exact M|].
    apply P. apply no_break_one_line. vm_compute. reflexivity.
Defined.

(** C7 as stated fails: the fixed entry for Kettlebell Swings has three
    lines under its name line, the entry rendered from a row of the same
    exercise has four, the line of targets being the one more; the fixed
    entries do not have the sub-line structure of the entries rendered from
    rows. *)
Lemma cardio_entry_lacks_target_line : ~ fixed_entries_like_rows cardio_plan.
Proof.
  intros Hc.
  assert (Hin : In kettlebell_row cardio_plan) by (right; left; reflexivity).
  specialize (Hc kettlebell_row Hin).
  assert (Hex : In (strip (cell_str (Exercise kettlebell_row))) cardio_exercises)
    by (vm_compute; left; reflexivity).
  specialize (Hc Hex). unfold same_sub_lines in Hc. vm_compute in Hc. discriminate.
Qed.

(** The labels of the two entries. *)
Example kettlebell_sub_lines :
  tl (sub_line_labels (render_cardio (u "Kettlebell Swings")))
  = [u "  https"; u "  Form Cue"; u "  Prescription"] /\
  tl (sub_line_labels (render_row kettlebell_row))
  = [u "  https"; u "  Primary"; u "  Form Cue"; u "  Prescription"].
Proof. split; vm_compute; reflexivity. Qed.
